(** * A Schelling segregation model with perceived similarity

    Shallow embedding of [mesa_w_perception/model_uniform.py]: the agent
    decision rule [SchellingAgent.step], the population set-up
    [Schelling.__init__], the tick [Schelling.step] and the reporter
    [calc_similarity], together with the parts of the toolkit (grid,
    scheduler, data collector) and of the two random sources that the
    program calls.

    Numbers.  Python [int]s are [Z].  Python [float]s are modelled as exact
    rationals [Q]: sums, products, quotients and comparisons are the
    mathematical ones, rounding to binary64 is left out.  Division raises
    [ZeroDivisionError] on a zero divisor, as [/] does in Python for both
    [int] and [float] operands. *)

From Stdlib Require Import ZArith QArith Qround Lia Lqa.
From stdpp Require Import base option list gmap fin_maps.

Local Open Scope Z_scope.

(** ** Python results: a value or a raised exception *)

Module Py.

Inductive exn : Type :=
  | ZeroDivisionError
  | ValueError
  | NoEmptyCells      (* mesa: Exception("ERROR: No empty cells") *)
  | CellNotEmpty      (* mesa: Exception("Cell not empty") *)
  | AlreadyAdded      (* mesa: Exception("Agent with unique id ... already added to scheduler") *)
  | TypeError         (* a position that is still None *)
  | IndexError
  | KeyError.

Inductive result (A : Type) : Type :=
  | Ok (a : A)
  | Raise (e : exn).
Arguments Ok {A} a.
Arguments Raise {A} e.

Definition bind {A B : Type} (r : result A) (f : A → result B) : result B :=
  match r with
  | Ok a => f a
  | Raise e => Raise e
  end.

Notation "x <- e ;; k" := (bind e (λ x, k))
  (at level 100, e at next level, right associativity).

(** [for x in xs: acc = body(acc, x)], stopping at the first exception. *)
Fixpoint for_each {A S : Type} (body : S → A → result S) (xs : list A) (s : S)
    : result S :=
  match xs with
  | [] => Ok s
  | x :: xs' => s' <- body s x;; for_each body xs' s'
  end.

(** [a / b] on numbers. *)
Definition truediv (a b : Q) : result Q :=
  if Qeq_bool b 0 then Raise ZeroDivisionError else Ok (a / b)%Q.

(** [a < b] on numbers. *)
Definition ltb (a b : Q) : bool :=
  match (a ?= b)%Q with
  | Lt => true
  | _ => false
  end.

(** [round(x)] to an integer: nearest, ties to the even neighbour. *)
Definition round_half_even (x : Q) : Z :=
  let f := Qfloor x in
  let d := (x - inject_Z f)%Q in
  match (d ?= 1 # 2)%Q with
  | Lt => f
  | Gt => f + 1
  | Eq => if Z.even f then f else f + 1
  end.

(** [round(x, ndigits)] for [ndigits >= 0]. *)
Definition round (x : Q) (ndigits : Z) : Q :=
  let p := inject_Z (10 ^ ndigits) in
  (inject_Z (round_half_even (x * p)) / p)%Q.

(** [sum(xs)] over integers. *)
Definition sum (xs : list Z) : Z := foldr Z.add 0 xs.

(** [range(lo, hi)]. *)
Definition range (lo hi : Z) : list Z :=
  map (λ i, lo + Z.of_nat i) (seq 0 (Z.to_nat (hi - lo))).

End Py.
Import Py.

(** ** numpy's global generator, as far as the program uses it

    [np.random.seed(s)] initialises a Mersenne Twister (MT19937) from the
    integer [s]; [np.random.uniform(low, high)] returns
    [low + (high - low) * u], where [u] is the next 53-bit double of the
    generator.  The program draws exactly once after each seeding, so only
    the first double of a freshly seeded state is needed. *)

Module Numpy.

Definition mask32 (x : Z) : Z := Z.land x 4294967295.

(** The key of [mt19937_seed]: [key[0] = s], and
    [key[i] = 1812433253 * (key[i-1] ^ (key[i-1] >> 30)) + i]. *)
Fixpoint key_from (n : nat) (pos : Z) (k : Z) : Z :=
  match n with
  | O => k
  | S n' =>
      key_from n' (pos + 1)
        (mask32 (1812433253 * Z.lxor k (Z.shiftr k 30) + pos + 1))
  end.

Definition key (s : Z) (i : nat) : Z := key_from i 0 (mask32 s).

(** One word of the regenerated state: [key[i+397] ^ (y >> 1) ^ mag]. *)
Definition twist (s : Z) (i : nat) : Z :=
  let y := Z.lor (Z.land (key s i) 2147483648)
                 (Z.land (key s (S i)) 2147483647) in
  let mag := if Z.odd y then 2567483615 else 0 in
  Z.lxor (Z.lxor (key s (i + 397)) (Z.shiftr y 1)) mag.

Definition temper (y : Z) : Z :=
  let y := Z.lxor y (Z.shiftr y 11) in
  let y := Z.lxor y (Z.land (Z.shiftl y 7) 2636928640) in
  let y := Z.lxor y (Z.land (Z.shiftl y 15) 4022730752) in
  Z.lxor y (Z.shiftr y 18).

(** The [i]-th 32-bit output after seeding with [s], for [i < 227]. *)
Definition uint32 (s : Z) (i : nat) : Z := mask32 (temper (twist s i)).

(** The first double after seeding with [s]:
    [(a * 67108864 + b) / 9007199254740992] with [a], [b] the top 27 and 26
    bits of the first two outputs. *)
Definition first_double (s : Z) : Q :=
  let a := Z.shiftr (uint32 s 0) 5 in
  let b := Z.shiftr (uint32 s 1) 6 in
  inject_Z (a * 67108864 + b) / inject_Z 9007199254740992.

(** [np.random.seed(s)]: the seed must fit in 32 bits. *)
Definition seed (s : Z) : result Z :=
  if (0 <=? s) && (s <=? 4294967295) then Ok s else Raise ValueError.

(** [np.random.uniform(low, high)] right after [np.random.seed(s)]. *)
Definition uniform (s : Z) (low high : Q) : Q :=
  (low + (high - low) * first_double s)%Q.

End Numpy.


(** ** The model's primary random source ([random.Random])

    The generator is an input of the model: a tape of non-negative integers
    and a cursor.  [random()], and each [_randbelow(n)] behind [shuffle] and
    [choice], consume one entry.  Every sequence of outcomes of the real
    generator is the reading of some tape. *)

Module PyRandom.

Record t : Type := { tape : nat → Z; cursor : nat }.

Definition advance (r : t) : t := {| tape := tape r; cursor := S (cursor r) |}.

(** [random()]: a number in [[0, 1)]. *)
Definition random (r : t) : Q * t :=
  (inject_Z (tape r (cursor r) `mod` 9007199254740992)
     / inject_Z 9007199254740992, advance r)%Q.

(** [_randbelow(n)] for [n > 0]: an integer in [[0, n)]. *)
Definition randbelow (n : Z) (r : t) : Z * t :=
  (tape r (cursor r) `mod` n, advance r).

(** [x[i], x[j] = x[j], x[i]] *)
Definition swap {A : Type} (x : list A) (i j : nat) : list A :=
  match x !! i, x !! j with
  | Some xi, Some xj => <[j := xi]> (<[i := xj]> x)
  | _, _ => x
  end.

(** [for i in reversed(range(1, n + 1)): j = randbelow(i + 1); swap] *)
Fixpoint shuffle_from {A : Type} (n : nat) (x : list A) (r : t) : list A * t :=
  match n with
  | O => (x, r)
  | S i =>
      let '(j, r') := randbelow (Z.of_nat (S i) + 1) r in
      shuffle_from i (swap x (S i) (Z.to_nat j)) r'
  end.

(** [shuffle(x)] *)
Definition shuffle {A : Type} (x : list A) (r : t) : list A * t :=
  shuffle_from (length x - 1) x r.

(** [choice(seq)]: [seq[_randbelow(len(seq))]]; an empty [seq] raises. *)
Definition choice {A : Type} (seq : list A) (r : t) : result (A * t) :=
  if bool_decide (length seq = 0%nat) then Raise IndexError
  else
    let '(j, r') := randbelow (Z.of_nat (length seq)) r in
    match seq !! Z.to_nat j with
    | Some x => Ok (x, r')
    | None => Raise IndexError
    end.

End PyRandom.

(** ** Data model *)

Definition Coordinate : Type := Z * Z.

(** [SchellingAgent]: the fields set by [mesa.Agent.__init__]
    ([unique_id], [pos]) and by [SchellingAgent.__init__]. *)
Record SchellingAgent : Type := {
  unique_id : Z;
  pos : option Coordinate;
  type : Z;
  homophily : Q;
  similar : Z;
  accepted_dissimilar : Q;
  perceived_similar : Q
}.

Definition set_pos (p : option Coordinate) (a : SchellingAgent) : SchellingAgent :=
  {| unique_id := unique_id a; pos := p; type := type a;
     homophily := homophily a; similar := similar a;
     accepted_dissimilar := accepted_dissimilar a;
     perceived_similar := perceived_similar a |}.

Definition set_similar (v : Z) (a : SchellingAgent) : SchellingAgent :=
  {| unique_id := unique_id a; pos := pos a; type := type a;
     homophily := homophily a; similar := v;
     accepted_dissimilar := accepted_dissimilar a;
     perceived_similar := perceived_similar a |}.

Definition set_accepted_dissimilar (v : Q) (a : SchellingAgent) : SchellingAgent :=
  {| unique_id := unique_id a; pos := pos a; type := type a;
     homophily := homophily a; similar := similar a;
     accepted_dissimilar := v;
     perceived_similar := perceived_similar a |}.

(** ** The toolkit, as far as the program uses it

    Agents are objects shared between the scheduler and the grid.  The
    scheduler's dictionary, keyed by [unique_id], is the store of the agent
    objects; a grid cell refers to its occupant by that key.  The order of
    the dictionary only feeds the shuffle of [RandomActivation.step] and
    sums over integers.  The definitions follow the 2.x releases of the
    toolkit, whose [coord_iter] yields the cell content with its position,
    as the set-up loop of the program expects. *)

Module Mesa.

(** [mesa.space.SingleGrid(width, height, torus=True)] *)
Record SingleGrid : Type := {
  g_width : Z;
  g_height : Z;
  cells : gmap Coordinate Z
}.

(** [mesa.time.RandomActivation] *)
Record RandomActivation : Type := {
  agents : gmap Z SchellingAgent;
  steps : Z
}.

(** One row of the agent reporters: [similar], [perceived_similar], [type]. *)
Record AgentRow : Type := {
  row_step : Z;
  row_id : Z;
  row_similar : Z;
  row_perceived_similar : Q;
  row_type : Z
}.

(** One [DataCollector.collect]: the model reporters [happy] and
    [similarity], and a row per scheduled agent. *)
Record Snapshot : Type := {
  snap_happy : Z;
  snap_similarity : Q;
  snap_agents : list AgentRow
}.

(** [coord_iter]: [for row in range(width): for col in range(height)]. *)
Definition coord_iter (g : SingleGrid) : list Coordinate :=
  x ← range 0 (g_width g); y ← range 0 (g_height g); [(x, y)].

Definition is_cell_empty (g : SingleGrid) (p : Coordinate) : bool :=
  bool_decide (cells g !! p = None).

(** [sorted(self.empties)] *)
Definition empties (g : SingleGrid) : list Coordinate :=
  filter (λ p, is_cell_empty g p = true) (coord_iter g).

(** [SingleGrid.place_agent]: the grid part; the caller sets [agent.pos]. *)
Definition place (uid : Z) (p : Coordinate) (g : SingleGrid) : result SingleGrid :=
  if is_cell_empty g p
  then Ok {| g_width := g_width g; g_height := g_height g;
             cells := <[p := uid]> (cells g) |}
  else Raise CellNotEmpty.

(** [SingleGrid.remove_agent]: the grid part. *)
Definition remove (p : Coordinate) (g : SingleGrid) : SingleGrid :=
  {| g_width := g_width g; g_height := g_height g; cells := delete p (cells g) |}.

(** First occurrences only, as the keys of a dictionary filled in order. *)
Fixpoint dedup_first (l : list Coordinate) (seen : list Coordinate) : list Coordinate :=
  match l with
  | [] => []
  | p :: l' =>
      if bool_decide (p ∈ seen) then dedup_first l' seen
      else p :: dedup_first l' (p :: seen)
  end.

Definition out_of_bounds (g : SingleGrid) (p : Coordinate) : bool :=
  negb ((0 <=? p.1) && (p.1 <? g_width g) && (0 <=? p.2) && (p.2 <? g_height g)).

(** [get_neighborhood(pos, moore=True, include_center=False, radius)] on a
    torus: the cells at offsets [dx, dy] in [-radius..radius], wrapped, each
    once, without the centre.  Wrapping divides by the grid's extent. *)
Definition get_neighborhood (g : SingleGrid) (p : Coordinate) (radius : Z)
    : result (list Coordinate) :=
  let offsets := dx ← range (- radius) (radius + 1);
                 dy ← range (- radius) (radius + 1); [(dx, dy)] in
  if bool_decide (offsets = []) then Ok []
  else if (g_width g =? 0) || (g_height g =? 0) then Raise ZeroDivisionError
  else
    let wrapped := map (λ d, ((p.1 + d.1) `mod` g_width g,
                              (p.2 + d.2) `mod` g_height g)) offsets in
    let inside := filter (λ q, out_of_bounds g q = false) wrapped in
    Ok (filter (λ q, q ≠ p) (dedup_first inside [])).

(** [iter_neighbors(pos, moore=True, radius)]: the occupants of the
    non-empty cells of the neighbourhood. *)
Definition iter_neighbors (g : SingleGrid) (store : gmap Z SchellingAgent)
    (p : Coordinate) (radius : Z) : result (list SchellingAgent) :=
  nbh <- get_neighborhood g p radius;;
  Ok (omap (λ q, uid ← cells g !! q; store !! uid) nbh).

End Mesa.
Import Mesa.

(** ** The program *)

(** [Schelling]: the fields set by [mesa.Model.__init__] ([running],
    [current_id], [random]) and by [Schelling.__init__]. *)
Record Schelling : Type := {
  height : Z;
  width : Z;
  density : Q;
  minority_pc : Q;
  homophily_ub : Q;
  homophily_lb : Q;
  radius : Z;
  preference : Q;
  schedule : RandomActivation;
  grid : SingleGrid;
  happy : Z;
  similarity : Q;
  datacollector : list Snapshot;
  running : bool;
  current_id : Z;
  random : PyRandom.t
}.

Definition set_schedule (v : RandomActivation) (m : Schelling) : Schelling :=
  {| height := height m; width := width m; density := density m;
     minority_pc := minority_pc m; homophily_ub := homophily_ub m;
     homophily_lb := homophily_lb m; radius := radius m;
     preference := preference m; schedule := v; grid := grid m;
     happy := happy m; similarity := similarity m;
     datacollector := datacollector m; running := running m;
     current_id := current_id m; random := random m |}.

Definition set_grid (v : SingleGrid) (m : Schelling) : Schelling :=
  {| height := height m; width := width m; density := density m;
     minority_pc := minority_pc m; homophily_ub := homophily_ub m;
     homophily_lb := homophily_lb m; radius := radius m;
     preference := preference m; schedule := schedule m; grid := v;
     happy := happy m; similarity := similarity m;
     datacollector := datacollector m; running := running m;
     current_id := current_id m; random := random m |}.

Definition set_happy (v : Z) (m : Schelling) : Schelling :=
  {| height := height m; width := width m; density := density m;
     minority_pc := minority_pc m; homophily_ub := homophily_ub m;
     homophily_lb := homophily_lb m; radius := radius m;
     preference := preference m; schedule := schedule m; grid := grid m;
     happy := v; similarity := similarity m;
     datacollector := datacollector m; running := running m;
     current_id := current_id m; random := random m |}.

Definition set_similarity (v : Q) (m : Schelling) : Schelling :=
  {| height := height m; width := width m; density := density m;
     minority_pc := minority_pc m; homophily_ub := homophily_ub m;
     homophily_lb := homophily_lb m; radius := radius m;
     preference := preference m; schedule := schedule m; grid := grid m;
     happy := happy m; similarity := v;
     datacollector := datacollector m; running := running m;
     current_id := current_id m; random := random m |}.

Definition set_datacollector (v : list Snapshot) (m : Schelling) : Schelling :=
  {| height := height m; width := width m; density := density m;
     minority_pc := minority_pc m; homophily_ub := homophily_ub m;
     homophily_lb := homophily_lb m; radius := radius m;
     preference := preference m; schedule := schedule m; grid := grid m;
     happy := happy m; similarity := similarity m;
     datacollector := v; running := running m;
     current_id := current_id m; random := random m |}.

Definition set_running (v : bool) (m : Schelling) : Schelling :=
  {| height := height m; width := width m; density := density m;
     minority_pc := minority_pc m; homophily_ub := homophily_ub m;
     homophily_lb := homophily_lb m; radius := radius m;
     preference := preference m; schedule := schedule m; grid := grid m;
     happy := happy m; similarity := similarity m;
     datacollector := datacollector m; running := v;
     current_id := current_id m; random := random m |}.

Definition set_current_id (v : Z) (m : Schelling) : Schelling :=
  {| height := height m; width := width m; density := density m;
     minority_pc := minority_pc m; homophily_ub := homophily_ub m;
     homophily_lb := homophily_lb m; radius := radius m;
     preference := preference m; schedule := schedule m; grid := grid m;
     happy := happy m; similarity := similarity m;
     datacollector := datacollector m; running := running m;
     current_id := v; random := random m |}.

Definition set_random (v : PyRandom.t) (m : Schelling) : Schelling :=
  {| height := height m; width := width m; density := density m;
     minority_pc := minority_pc m; homophily_ub := homophily_ub m;
     homophily_lb := homophily_lb m; radius := radius m;
     preference := preference m; schedule := schedule m; grid := grid m;
     happy := happy m; similarity := similarity m;
     datacollector := datacollector m; running := running m;
     current_id := current_id m; random := v |}.

(** [self.schedule._agents[uid] = a]: the object [uid] now has the fields
    of [a], for every holder of a reference to it. *)
Definition store_agent (uid : Z) (a : SchellingAgent) (m : Schelling) : Schelling :=
  set_schedule {| agents := <[uid := a]> (agents (schedule m));
                  steps := steps (schedule m) |} m.

(** [model.schedule.agents] *)
Definition schedule_agents (m : Schelling) : list SchellingAgent :=
  (map_to_list (agents (schedule m))).*2.

(** [model.schedule.get_agent_count()] *)
Definition get_agent_count (m : Schelling) : Z :=
  Z.of_nat (size (agents (schedule m))).

(** [model.next_id()] *)
Definition next_id (m : Schelling) : Z * Schelling :=
  (current_id m + 1, set_current_id (current_id m + 1) m).

(** [model.grid.move_to_empty(agent)]: the agent leaves its cell for one of
    the empty cells, picked by one draw of the primary source. *)
Definition move_to_empty (uid : Z) (m : Schelling) : result Schelling :=
  match agents (schedule m) !! uid with
  | None => Raise KeyError
  | Some agent =>
      let es := empties (grid m) in
      if bool_decide (length es = 0%nat) then Raise NoEmptyCells
      else
        c <- PyRandom.choice es (random m);;
        let '(new_pos, r) := c in
        match pos agent with
        | None => Raise TypeError
        | Some old =>
            g <- place uid new_pos (remove old (grid m));;
            Ok (store_agent uid (set_pos (Some new_pos) agent)
                  (set_grid g (set_random r m)))
        end
  end.

(** [calc_similarity(model)] *)
Definition calc_similarity (model : Schelling) : result Q :=
  let neighbor_sim := map similar (schedule_agents model) in
  let N := (density model * inject_Z (width model) * inject_Z (height model))%Q in
  truediv (inject_Z (sum neighbor_sim)) N.

(** [SchellingAgent.__init__] *)
Definition SchellingAgent_init (uid agent_type : Z) (h : Q)
    (sim : Z) (acc : Q) : SchellingAgent :=
  {| unique_id := uid; pos := None; type := agent_type; homophily := h;
     similar := sim; accepted_dissimilar := acc;
     perceived_similar := (inject_Z sim + acc)%Q |}.

(** The body of the loop over the neighbours in [SchellingAgent.step]. *)
Definition visit_neighbor (model_preference : Q)
    (self neighbor : SchellingAgent) : result SchellingAgent :=
  if type neighbor =? type self
  then Ok (set_similar (similar self + 1) self)
  else
    let preference := model_preference in
    inv <- truediv 1 (homophily self);;
    Ok (set_accepted_dissimilar
          (accepted_dissimilar self + preference * inv * 1)%Q self).

(** The test of [if self.similar + self.accepted_dissimilar < self.homophily]. *)
Definition unhappy (self : SchellingAgent) : bool :=
  ltb (inject_Z (similar self) + accepted_dissimilar self)%Q (homophily self).

(** [SchellingAgent.step], for the agent object [uid]. *)
Definition agent_step (uid : Z) (m : Schelling) : result Schelling :=
  match agents (schedule m) !! uid with
  | None => Raise KeyError
  | Some self =>
      let self := set_similar 0 self in
      let self := set_accepted_dissimilar 0 self in
      match pos self with
      | None => Raise TypeError
      | Some p =>
          nbrs <- iter_neighbors (grid m) (agents (schedule m)) p (radius m);;
          self <- for_each (visit_neighbor (preference m)) nbrs self;;
          let m := store_agent uid self m in
          if unhappy self
          then move_to_empty uid m
          else Ok (set_happy (happy m + 1) m)
      end
  end.

(** [schedule.add(agent)] *)
Definition schedule_add (a : SchellingAgent) (m : Schelling) : result Schelling :=
  match agents (schedule m) !! unique_id a with
  | Some _ => Raise AlreadyAdded
  | None => Ok (store_agent (unique_id a) a m)
  end.

(** One row per scheduled agent and the two model reporters. *)
Definition snapshot (m : Schelling) : Snapshot :=
  {| snap_happy := happy m;
     snap_similarity := similarity m;
     snap_agents :=
       map (λ a, {| row_step := steps (schedule m); row_id := unique_id a;
                    row_similar := similar a;
                    row_perceived_similar := perceived_similar a;
                    row_type := type a |})
           (schedule_agents m) |}.

(** [self.datacollector.collect(self)] *)
Definition collect (m : Schelling) : Schelling :=
  set_datacollector (datacollector m ++ [snapshot m]) m.

(** The body of [for _, pos in self.grid.coord_iter()] in
    [Schelling.__init__]. *)
Definition populate_cell (lb ub : Q) (m : Schelling) (p : Coordinate)
    : result Schelling :=
  let '(u, r) := PyRandom.random (random m) in
  let m := set_random r m in
  if ltb u (density m) then
    let '(u', r') := PyRandom.random (random m) in
    let m := set_random r' m in
    let agent_type := if ltb u' (minority_pc m) then 1 else 0 in
    let '(seed_id, m) := next_id m in
    s <- Numpy.seed seed_id;;
    let h := Numpy.uniform s lb ub in
    let '(agent_id, m) := next_id m in
    let agent := SchellingAgent_init agent_id agent_type h 0 0 in
    g <- place agent_id p (grid m);;
    let agent := set_pos (Some p) agent in
    schedule_add agent (set_grid g m)
  else Ok m.

(** [Schelling.__init__], up to the loop over the cells: the fields as the
    assignments leave them; [seed] is the state of the primary random
    source. *)
Definition unpopulated (height width : Z) (homophily_lb homophily_ub preference : Q)
    (radius : Z) (density minority_pc : Q) (seed : PyRandom.t) : Schelling :=
  {| height := height; width := width; density := density;
     minority_pc := minority_pc; homophily_ub := homophily_ub;
     homophily_lb := homophily_lb; radius := radius;
     preference := preference;
     schedule := {| agents := ∅; steps := 0 |};
     grid := {| g_width := width; g_height := height; cells := ∅ |};
     happy := 0; similarity := 0; datacollector := [];
     running := true; current_id := 0; random := seed |}.

(** [Schelling.__init__] *)
Definition init (height width : Z) (homophily_lb homophily_ub preference : Q)
    (radius : Z) (density minority_pc : Q) (seed : PyRandom.t)
    : result Schelling :=
  let m := unpopulated height width homophily_lb homophily_ub preference
             radius density minority_pc seed in
  m <- for_each (populate_cell homophily_lb homophily_ub) (coord_iter (grid m)) m;;
  Ok (collect m).

(** What [RandomActivation.step] does with one key of its shuffled list:
    [if key in self._agents: self._agents[key].step()]. *)
Definition activate (m : Schelling) (key : Z) : result Schelling :=
  match agents (schedule m) !! key with
  | Some _ => agent_step key m
  | None => Ok m
  end.

(** [RandomActivation.step]: every scheduled agent once, in shuffled order. *)
Definition schedule_step (m : Schelling) : result Schelling :=
  let agent_keys := (map_to_list (agents (schedule m))).*1 in
  let '(agent_keys, r) := PyRandom.shuffle agent_keys (random m) in
  m <- for_each activate agent_keys (set_random r m);;
  Ok (set_schedule {| agents := agents (schedule m);
                      steps := steps (schedule m) + 1 |} m).

(** [Schelling.step] *)
Definition step (m : Schelling) : result Schelling :=
  let m := set_happy 0 m in
  m <- schedule_step m;;
  s <- calc_similarity m;;
  let m := set_similarity (round s 2) m in
  let m := collect m in
  if happy m =? get_agent_count m
  then Ok (set_running false m)
  else Ok m.

(** ** Sample runs *)

Module Samples.

Definition tape_of (l : list Z) : PyRandom.t :=
  {| PyRandom.tape := λ i, nth i l 0; PyRandom.cursor := 0 |}.

(** A draw of [random()] just below 1. *)
Definition big : Z := 9007199254740991.

(** A model without cells, for the results that are exceptions. *)
Definition blank : Schelling :=
  {| height := 0; width := 0; density := 0; minority_pc := 0;
     homophily_ub := 0; homophily_lb := 0; radius := 0; preference := 0;
     schedule := {| agents := ∅; steps := 0 |};
     grid := {| g_width := 0; g_height := 0; cells := ∅ |};
     happy := 0; similarity := 0; datacollector := [];
     running := true; current_id := 0; random := tape_of [] |}.

Definition or_blank (r : result Schelling) : Schelling :=
  match r with
  | Ok m => m
  | Raise _ => blank
  end.

Definition nobody : SchellingAgent := SchellingAgent_init 0 0 0 0 0.

Definition agent_at (uid : Z) (m : Schelling) : SchellingAgent :=
  default nobody (agents (schedule m) !! uid).

(** [Schelling(height=1, width=2)] with the defaults elsewhere; every draw
    of the primary source is 0: both cells populated, both agents of the
    minority type. *)
Definition pair : Schelling :=
  or_blank (init 1 2 0 1 0 1 (8 # 10) (2 # 10) (tape_of [])).

Definition pair_after : Schelling := or_blank (step pair).

(** [Schelling(height=1, width=2, homophily_lb=0, homophily_ub=0)]: two
    neighbours of different types, each with homophily 0. *)
Definition mixed_zero : Schelling :=
  or_blank (init 1 2 0 0 0 1 (8 # 10) (2 # 10) (tape_of [0; 0; 0; big])).

(** [Schelling(height=1, width=3, preference=0.25)]: two agents of different
    types and one empty cell. *)
Definition trio : Schelling :=
  or_blank (init 1 3 0 1 (1 # 4) 1 (8 # 10) (2 # 10) (tape_of [0; 0; 0; big; big])).

Definition trio_after : Schelling := or_blank (step trio).

(** The same grid with [preference=0]: nobody tolerates a dissimilar
    neighbour. *)
Definition trio_strict : Schelling :=
  or_blank (init 1 3 0 1 0 1 (8 # 10) (2 # 10) (tape_of [0; 0; 0; big; big])).

Definition trio_strict_after : Schelling := or_blank (step trio_strict).

End Samples.


(** ** Specification vocabulary *)

(** The neighbours of [self] that share its type, and those that do not. *)
Definition same_type_neighbors (self : SchellingAgent) (nbrs : list SchellingAgent)
    : list SchellingAgent :=
  filter (λ nb, type nb = type self) nbrs.

Definition dissimilar_neighbors (self : SchellingAgent) (nbrs : list SchellingAgent)
    : list SchellingAgent :=
  filter (λ nb, type nb ≠ type self) nbrs.

(** [similar + accepted_dissimilar >= homophily] *)
Definition satisfied (a : SchellingAgent) : Prop :=
  (homophily a <= inject_Z (similar a) + accepted_dissimilar a)%Q.

#[export] Instance satisfied_dec a : Decision (satisfied a).
Proof.
  unfold satisfied.
  destruct (Qlt_le_dec (inject_Z (similar a) + accepted_dissimilar a) (homophily a)).
  - right. by apply Qlt_not_le.
  - by left.
Defined.

(** The agent as the loop over the neighbours finds it. *)
Definition reset (self : SchellingAgent) : SchellingAgent :=
  set_accepted_dissimilar 0 (set_similar 0 self).

(** The object [i] of the store passes the satisfaction test. *)
Definition satisfied_at (store : gmap Z SchellingAgent) (i : Z) : Prop :=
  ∃ a, store !! i = Some a ∧ unhappy a = false.

#[export] Instance satisfied_at_dec store i : Decision (satisfied_at store i).
Proof.
  unfold satisfied_at. destruct (store !! i) as [a|].
  - destruct (unhappy a) eqn:E.
    + right. intros (a' & [= <-] & H). congruence.
    + left. eauto.
  - right. intros (a' & [=] & _).
Defined.

(** The construction parameters and the lifecycle flag. *)
Definition parameters (m : Schelling) : Z * Z * Q * Q * Q * Q * Z * Q * bool :=
  (height m, width m, density m, minority_pc m, homophily_ub m,
   homophily_lb m, radius m, preference m, running m).

(** The agent that [Schelling.__init__] makes when the counter of ids stands
    at [cur]: seeded with [cur + 1], named [cur + 2]. *)
Definition new_agent (lb ub : Q) (cur agent_type : Z) (p : Coordinate)
    : SchellingAgent :=
  set_pos (Some p)
    (SchellingAgent_init (cur + 2) agent_type (Numpy.uniform (cur + 1) lb ub) 0 0).


(** The grid and the store agree: an agent stands on the cell that holds its
    key, a cell holds the key of an agent standing on it, the key of an
    agent is its [unique_id], and every occupied cell is a cell of the
    grid. *)
Record consistent (m : Schelling) : Prop := {
  agent_on_cell : ∀ uid a, agents (schedule m) !! uid = Some a →
    unique_id a = uid ∧ ∃ p, pos a = Some p ∧ cells (grid m) !! p = Some uid;
  cell_of_agent : ∀ p uid, cells (grid m) !! p = Some uid →
    ∃ a, agents (schedule m) !! uid = Some a ∧ pos a = Some p;
  cell_in_grid : ∀ p, is_Some (cells (grid m) !! p) → p ∈ coord_iter (grid m)
}.

(** What an activation does not touch, besides the [parameters]. *)
Definition bookkeeping (m : Schelling) : Q * list Snapshot * Z * Z * Z * Z :=
  (similarity m, datacollector m, steps (schedule m), current_id m,
   g_width (grid m), g_height (grid m)).

(** The fields of an agent that are given at its creation. *)
Definition identity (a : SchellingAgent) : Z * Z * Q * Q :=
  (unique_id a, type a, homophily a, perceived_similar a).

(** [n] calls of [step] in a row, as a driver of the model makes them. *)
Fixpoint ticks (n : nat) (m : Schelling) : result Schelling :=
  match n with
  | O => Ok m
  | S n' => m' <- step m;; ticks n' m'
  end.

(** The row of the agent reporters for one agent. *)
Definition agent_row (step_index : Z) (a : SchellingAgent) : AgentRow :=
  {| row_step := step_index; row_id := unique_id a; row_similar := similar a;
     row_perceived_similar := perceived_similar a; row_type := type a |}.

(** More sample constructions. *)
Module MoreSamples.

(** [Schelling(height=2, width=2, density=1.0)]: every cell is populated,
    whatever the primary source draws; the types alternate. *)
Definition full : Schelling :=
  Samples.or_blank
    (init 2 2 0 1 0 1 1 (2 # 10)
       (Samples.tape_of [Samples.big; 0; Samples.big; Samples.big;
                         Samples.big; 0; Samples.big; Samples.big])).

(** [Schelling(height=2, width=2, density=0.0)]: no cell is populated. *)
Definition nobody_home : Schelling :=
  Samples.or_blank (init 2 2 0 1 0 1 0 (2 # 10) (Samples.tape_of [])).

(** [Schelling(height=2, width=2, density=-0.5)] *)
Definition negative_density : Schelling :=
  Samples.or_blank (init 2 2 0 1 0 1 (- 1 # 2) (2 # 10) (Samples.tape_of [])).

(** [Schelling(height=1, width=3, radius=0)] *)
Definition blind : Schelling :=
  Samples.or_blank
    (init 1 3 0 1 0 0 (8 # 10) (2 # 10)
       (Samples.tape_of [0; 0; 0; Samples.big; Samples.big])).

(** [Schelling(height=1, width=3, minority_pc=0.0)]: majority agents only. *)
Definition majority_only : Schelling :=
  Samples.or_blank
    (init 1 3 0 1 0 1 (8 # 10) 0 (Samples.tape_of [0; 0; 0; 0; Samples.big])).


End MoreSamples.

(** Every agent, and every row of every snapshot, shows a
    [perceived_similar] of 0. *)
Definition perceived_similar_is_zero (m : Schelling) : Prop :=
  (∀ uid a, agents (schedule m) !! uid = Some a → (perceived_similar a == 0)%Q) ∧
  (∀ snap row, snap ∈ datacollector m → row ∈ snap_agents snap →
               (row_perceived_similar row == 0)%Q).

(** ** Basic facts *)

Lemma bind_Ok {A B : Type} (r : result A) (f : A → result B) (b : B) :
  (x <- r;; f x) = Ok b → ∃ a, r = Ok a ∧ f a = Ok b.
Proof. destruct r as [a|e]; simpl; [eauto | discriminate]. Qed.

Lemma ltb_lt (a b : Q) : ltb a b = true ↔ (a < b)%Q.
Proof.
  unfold ltb. rewrite Qlt_alt. destruct (a ?= b)%Q; split; congruence.
Qed.

Lemma ltb_ge (a b : Q) : ltb a b = false ↔ (b <= a)%Q.
Proof.
  rewrite <- not_true_iff_false, ltb_lt. split.
  - apply Qnot_lt_le.
  - intros H1 H2. by apply (Qlt_not_le _ _ H2).
Qed.

Lemma unhappy_false a : unhappy a = false ↔ satisfied a.
Proof. apply ltb_ge. Qed.


Lemma truediv_Ok (a b q : Q) : truediv a b = Ok q → ¬ (b == 0)%Q ∧ q = (a / b)%Q.
Proof.
  unfold truediv. destruct (Qeq_bool b 0) eqn:E; [discriminate|].
  intros [= <-]. split; [|done]. by apply Qeq_bool_neq.
Qed.

Lemma truediv_zero (a b : Q) : (b == 0)%Q → truediv a b = Raise ZeroDivisionError.
Proof.
  intros H. unfold truediv. by rewrite (proj2 (Qeq_bool_iff b 0) H).
Qed.

(** *** The loop over the neighbours *)

Lemma visit_neighbor_same pref self nb :
  type nb = type self →
  visit_neighbor pref self nb = Ok (set_similar (similar self + 1) self).
Proof. intros H. unfold visit_neighbor. by rewrite H, Z.eqb_refl. Qed.

Lemma visit_neighbor_dissimilar pref self nb :
  type nb ≠ type self →
  visit_neighbor pref self nb =
    (inv <- truediv 1 (homophily self);;
     Ok (set_accepted_dissimilar
           (accepted_dissimilar self + pref * inv * 1)%Q self)).
Proof.
  intros H. unfold visit_neighbor.
  by rewrite (proj2 (Z.eqb_neq _ _) H).
Qed.

(** The loop only writes [similar] and [accepted_dissimilar]. *)
Lemma visit_neighbor_fields pref self nb self' :
  visit_neighbor pref self nb = Ok self' →
  unique_id self' = unique_id self ∧ pos self' = pos self ∧
  type self' = type self ∧ homophily self' = homophily self ∧
  perceived_similar self' = perceived_similar self.
Proof.
  unfold visit_neighbor. destruct (type nb =? type self).
  - by intros [= <-].
  - intros (inv & _ & [= <-])%bind_Ok. done.
Qed.

Lemma neighbors_loop_fields pref nbrs self self' :
  for_each (visit_neighbor pref) nbrs self = Ok self' →
  unique_id self' = unique_id self ∧ pos self' = pos self ∧
  type self' = type self ∧ homophily self' = homophily self ∧
  perceived_similar self' = perceived_similar self.
Proof.
  revert self. induction nbrs as [|nb nbrs IH]; intros self; simpl.
  - by intros [= <-].
  - intros (s1 & H1 & H2)%bind_Ok.
    apply visit_neighbor_fields in H1. apply IH in H2.
    destruct H1 as (<- & <- & <- & <- & <-). done.
Qed.

(** What the loop leaves in [similar] and [accepted_dissimilar]. *)
Lemma neighbors_loop_counts pref nbrs self self' :
  for_each (visit_neighbor pref) nbrs self = Ok self' →
  similar self' =
    similar self + Z.of_nat (length (same_type_neighbors self nbrs)) ∧
  (accepted_dissimilar self' ==
     accepted_dissimilar self +
     inject_Z (Z.of_nat (length (dissimilar_neighbors self nbrs))) *
       (pref * (1 / homophily self)))%Q.
Proof.
  unfold same_type_neighbors, dissimilar_neighbors.
  revert self. induction nbrs as [|nb nbrs IH]; intros self; simpl.
  - intros [= <-]. split; [lia|]. simpl. ring.
  - intros (s1 & H1 & H2)%bind_Ok.
    destruct (visit_neighbor_fields _ _ _ _ H1) as (_ & _ & Ht & Hh & _).
    apply IH in H2. rewrite Ht, Hh in H2. destruct H2 as [H2 H3].
    rewrite H2, H3. clear H2 H3 IH.
    rewrite !filter_cons.
    destruct (decide (type nb = type self)) as [E|E].
    + rewrite visit_neighbor_same in H1 by done. injection H1 as <-.
      rewrite decide_False by tauto. simpl length. simpl similar.
      simpl accepted_dissimilar. split; [lia | done].
    + rewrite visit_neighbor_dissimilar in H1 by done.
      apply bind_Ok in H1 as (inv & [_ ->]%truediv_Ok & [= <-]).
      rewrite decide_True by done. simpl length. simpl similar.
      simpl accepted_dissimilar. split; [done|].
      rewrite Nat2Z.inj_succ, <- Z.add_1_r, inject_Z_plus. ring.
Qed.

(** *** Relocation *)

Lemma choice_Ok {A : Type} (seq : list A) r x r' :
  PyRandom.choice seq r = Ok (x, r') → x ∈ seq.
Proof.
  unfold PyRandom.choice. case_bool_decide; [discriminate|].
  destruct (PyRandom.randbelow _ r) as [j r1].
  destruct (seq !! Z.to_nat j) eqn:E; [|discriminate].
  intros [= <- <-]. by eapply list_elem_of_lookup_2.
Qed.

Lemma move_to_empty_Ok uid m m' :
  move_to_empty uid m = Ok m' →
  ∃ agent old new_pos r,
    agents (schedule m) !! uid = Some agent ∧ pos agent = Some old ∧
    new_pos ∈ empties (grid m) ∧
    m' = store_agent uid (set_pos (Some new_pos) agent)
           (set_grid {| g_width := g_width (grid m);
                        g_height := g_height (grid m);
                        cells := <[new_pos := uid]> (delete old (cells (grid m))) |}
              (set_random r m)).
Proof.
  unfold move_to_empty.
  destruct (agents (schedule m) !! uid) as [agent|] eqn:Ha; [|discriminate].
  case_bool_decide; [discriminate|].
  intros ([new_pos r] & Hc & H1)%bind_Ok.
  destruct (pos agent) as [old|] eqn:Hp; [|discriminate].
  apply bind_Ok in H1 as (g & Hg & [= <-]).
  unfold place in Hg.
  destruct (is_cell_empty (remove old (grid m)) new_pos); [|discriminate].
  injection Hg as <-. exists agent, old, new_pos, r.
  split_and!; try done. by eapply choice_Ok.
Qed.

Lemma move_to_empty_not_ZeroDivisionError uid m :
  move_to_empty uid m ≠ Raise ZeroDivisionError.
Proof.
  unfold move_to_empty.
  destruct (agents (schedule m) !! uid) as [agent|]; [|discriminate].
  case_bool_decide; [discriminate|].
  unfold PyRandom.choice. case_bool_decide; [discriminate|].
  destruct (PyRandom.randbelow _ _) as [j r1].
  destruct (empties (grid m) !! Z.to_nat j); [|discriminate]. simpl.
  destruct (pos agent); [|discriminate].
  unfold place. destruct (is_cell_empty _ _); simpl; discriminate.
Qed.

(** *** One activation, taken apart *)

Lemma agent_step_Ok uid m m' :
  agent_step uid m = Ok m' →
  ∃ self p nbrs self',
    agents (schedule m) !! uid = Some self ∧ pos self = Some p ∧
    iter_neighbors (grid m) (agents (schedule m)) p (radius m) = Ok nbrs ∧
    for_each (visit_neighbor (preference m)) nbrs (reset self) = Ok self' ∧
    ((unhappy self' = false ∧
      m' = set_happy (happy m + 1) (store_agent uid self' m)) ∨
     (unhappy self' = true ∧
      move_to_empty uid (store_agent uid self' m) = Ok m')).
Proof.
  unfold agent_step.
  destruct (agents (schedule m) !! uid) as [self|] eqn:Ha; [|discriminate].
  simpl pos. destruct (pos self) as [p|] eqn:Hp; [|discriminate].
  intros (nbrs & Hn & (self' & Hl & H)%bind_Ok)%bind_Ok.
  exists self, p, nbrs, self'. split_and!; try done.
  destruct (unhappy self') eqn:Hu.
  - right. done.
  - left. by injection H as <-.
Qed.

(** The store after an activation: only the activated object changed, and of
    it only [pos], [similar] and [accepted_dissimilar]. *)
Lemma agent_step_store uid m m' :
  agent_step uid m = Ok m' →
  ∃ self self',
    agents (schedule m) !! uid = Some self ∧
    agents (schedule m') = <[uid := self']> (agents (schedule m)) ∧
    unique_id self' = unique_id self ∧ type self' = type self ∧
    homophily self' = homophily self ∧
    perceived_similar self' = perceived_similar self ∧
    happy m' = (if unhappy self' then happy m else happy m + 1).
Proof.
  intros (self & p & nbrs & self1 & Ha & Hp & Hn & Hl & H)%agent_step_Ok.
  apply neighbors_loop_fields in Hl as (Hu & _ & Ht & Hh & Hps).
  destruct H as [[Hun ->] | [Hun Hm]].
  - exists self, self1. rewrite Hun. by split_and!.
  - apply move_to_empty_Ok in Hm as (agent & old & new_pos & r & Hg & _ & _ & ->).
    simpl in Hg. rewrite lookup_insert_eq in Hg. injection Hg as <-.
    exists self, (set_pos (Some new_pos) self1). unfold unhappy in *. simpl.
    rewrite insert_insert_eq. unfold unhappy in Hun. rewrite Hun.
    by split_and!.
Qed.

(** *** The shuffle *)

Lemma swap_Permutation {A : Type} (x : list A) i j : PyRandom.swap x i j ≡ₚ x.
Proof.
  unfold PyRandom.swap.
  destruct (x !! i) eqn:Hi; [|done]. destruct (x !! j) eqn:Hj; [|done].
  by apply Permutation_insert_swap.
Qed.

Lemma shuffle_from_Permutation {A : Type} n (x : list A) r :
  (PyRandom.shuffle_from n x r).1 ≡ₚ x.
Proof.
  revert x r. induction n as [|i IH]; intros x r; [done|].
  simpl. rewrite IH. apply swap_Permutation.
Qed.

Lemma shuffle_Permutation {A : Type} (x : list A) r :
  (PyRandom.shuffle x r).1 ≡ₚ x.
Proof. apply shuffle_from_Permutation. Qed.

(** *** One round of activations *)

Lemma activations_happy ids : ∀ m m',
  NoDup ids →
  for_each activate ids m = Ok m' →
  happy m' =
    happy m + Z.of_nat (length (filter (satisfied_at (agents (schedule m'))) ids)) ∧
  (∀ j, j ∉ ids → agents (schedule m') !! j = agents (schedule m) !! j) ∧
  (∀ j, is_Some (agents (schedule m') !! j) ↔ is_Some (agents (schedule m) !! j)).
Proof.
  induction ids as [|i ids IH]; intros m m' Hnd; simpl.
  - intros [= <-]. split_and!; [lia | done | done].
  - apply NoDup_cons in Hnd as [Hi Hnd].
    intros (m1 & H1 & H2)%bind_Ok.
    destruct (IH _ _ Hnd H2) as (Hh & Hframe & Hdom). clear IH.
    rewrite filter_cons. unfold activate in H1.
    destruct (agents (schedule m) !! i) as [a|] eqn:Ha.
    + apply agent_step_store in H1
        as (self & self' & Hs & Hst & _ & _ & _ & _ & Hhappy).
      assert (agents (schedule m') !! i = Some self') as Hi'.
      { rewrite Hframe, Hst by done. apply lookup_insert_eq. }
      split_and!.
      * rewrite Hh, Hhappy.
        destruct (decide (satisfied_at (agents (schedule m')) i))
          as [(a' & Ha' & Hu)|Hn].
        -- rewrite Hi' in Ha'. injection Ha' as <-. rewrite Hu.
           simpl length. lia.
        -- destruct (unhappy self') eqn:Hu; [lia|].
           exfalso. apply Hn. by exists self'.
      * intros j [Hji Hj]%not_elem_of_cons.
        rewrite Hframe, Hst by done. by apply lookup_insert_ne.
      * intros j. rewrite Hdom, Hst.
        destruct (decide (i = j)) as [<-|Hne].
        -- rewrite lookup_insert_eq, Ha. split; eauto.
        -- by rewrite lookup_insert_ne.
    + injection H1 as <-. split_and!.
      * rewrite Hh. rewrite decide_False; [done|].
        intros (a' & Ha' & _). rewrite Hframe, Ha in Ha' by done. done.
      * intros j [Hji Hj]%not_elem_of_cons. by apply Hframe.
      * done.
Qed.

(** Counting over keys and counting over the stored objects agree. *)
Lemma satisfied_keys_values (store : gmap Z SchellingAgent)
    (l : list (Z * SchellingAgent)) :
  (∀ ia, ia ∈ l → store !! ia.1 = Some ia.2) →
  length (filter (satisfied_at store) l.*1) =
  length (filter (λ a, unhappy a = false) l.*2).
Proof.
  induction l as [|[i a] l IH]; intros Hl; [done|].
  rewrite !fmap_cons, !filter_cons. cbn [fst snd].
  assert (store !! i = Some a) as Hi by (apply (Hl (i, a)); left).
  specialize (IH (λ ia Hia, Hl ia (list_elem_of_further _ _ _ Hia))).
  destruct (decide (satisfied_at store i)) as [(a' & Ha' & Hu)|Hn].
  - rewrite Hi in Ha'. injection Ha' as <-.
    rewrite decide_True by done. rewrite !length_cons. by rewrite IH.
  - rewrite decide_False; [done|]. intros Hu. apply Hn. by exists a.
Qed.

Lemma keys_Permutation (s1 s2 : gmap Z SchellingAgent) :
  (∀ j, is_Some (s1 !! j) ↔ is_Some (s2 !! j)) →
  (map_to_list s1).*1 ≡ₚ (map_to_list s2).*1.
Proof.
  intros H. apply NoDup_Permutation; try apply NoDup_fst_map_to_list.
  intros j. rewrite !list_elem_of_fmap. split.
  - intros ([i a] & -> & Hi%elem_of_map_to_list). simpl.
    destruct (proj1 (H i)) as [b Hb]; [eauto|].
    exists (i, b). split; [done|]. by apply elem_of_map_to_list.
  - intros ([i a] & -> & Hi%elem_of_map_to_list). simpl.
    destruct (proj2 (H i)) as [b Hb]; [eauto|].
    exists (i, b). split; [done|]. by apply elem_of_map_to_list.
Qed.

Lemma schedule_step_Ok m m' :
  schedule_step m = Ok m' →
  ∃ ids r m1,
    ids ≡ₚ (map_to_list (agents (schedule m))).*1 ∧
    for_each activate ids (set_random r m) = Ok m1 ∧
    m' = set_schedule {| agents := agents (schedule m1);
                         steps := steps (schedule m1) + 1 |} m1.
Proof.
  unfold schedule_step.
  pose proof (shuffle_Permutation (map_to_list (agents (schedule m))).*1 (random m)) as Hp.
  destruct (PyRandom.shuffle _ _) as [ids r]. simpl in Hp.
  intros (m1 & H1 & [= <-])%bind_Ok. by exists ids, r, m1.
Qed.

(** After a round, [happy] has grown by the number of scheduled agents whose
    stored [similar], [accepted_dissimilar] and [homophily] pass the test. *)
Lemma schedule_step_happy m m' :
  schedule_step m = Ok m' →
  happy m' =
    happy m + Z.of_nat (length (filter (λ a, unhappy a = false) (schedule_agents m'))) ∧
  get_agent_count m' = get_agent_count m.
Proof.
  intros (ids & r & m1 & Hp & Hf & ->)%schedule_step_Ok.
  assert (NoDup ids) as Hnd.
  { rewrite Hp. apply NoDup_fst_map_to_list. }
  destruct (activations_happy _ _ _ Hnd Hf) as (Hh & _ & Hdom).
  simpl in Hh, Hdom. unfold schedule_agents, get_agent_count. simpl.
  pose proof (keys_Permutation _ _ Hdom) as Hk. split.
  - rewrite Hh. do 2 f_equal.
    rewrite <- (satisfied_keys_values (agents (schedule m1)))
      by (intros ia; apply elem_of_map_to_list').
    apply Permutation_length. rewrite Hp, Hk. done.
  - f_equal. rewrite <- !length_map_to_list.
    rewrite <- (length_fmap fst (map_to_list (agents (schedule m1)))).
    rewrite <- (length_fmap fst (map_to_list (agents (schedule m)))).
    by apply Permutation_length.
Qed.

(** *** What a tick leaves alone *)

Lemma agent_step_parameters uid m m' :
  agent_step uid m = Ok m' → parameters m' = parameters m.
Proof.
  intros (self & p & nbrs & self' & _ & _ & _ & _ & H)%agent_step_Ok.
  destruct H as [[_ ->] | [_ Hm]]; [done|].
  by apply move_to_empty_Ok in Hm as (? & ? & ? & ? & _ & _ & _ & ->).
Qed.

Lemma activations_parameters ids : ∀ m m',
  for_each activate ids m = Ok m' → parameters m' = parameters m.
Proof.
  induction ids as [|i ids IH]; intros m m'; simpl.
  - by intros [= <-].
  - intros (m1 & H1 & H2)%bind_Ok. rewrite (IH _ _ H2).
    unfold activate in H1. destruct (agents (schedule m) !! i).
    + by eapply agent_step_parameters.
    + by injection H1 as <-.
Qed.

Lemma schedule_step_parameters m m' :
  schedule_step m = Ok m' → parameters m' = parameters m.
Proof.
  intros (ids & r & m1 & _ & Hf & ->)%schedule_step_Ok.
  by apply activations_parameters in Hf.
Qed.

(** *** One tick, taken apart *)

Lemma step_Ok m m' :
  step m = Ok m' →
  ∃ m1 s,
    schedule_step (set_happy 0 m) = Ok m1 ∧
    calc_similarity m1 = Ok s ∧
    (if happy m1 =? get_agent_count m1
     then m' = set_running false (collect (set_similarity (round s 2) m1))
     else m' = collect (set_similarity (round s 2) m1)).
Proof.
  unfold step. intros (m1 & H1 & (s & Hs & H)%bind_Ok)%bind_Ok.
  exists m1, s. split_and!; try done.
  unfold get_agent_count in *. simpl in *.
  destruct (happy m1 =? _); by injection H as <-.
Qed.

Lemma step_happy m m' :
  step m = Ok m' →
  happy m' = Z.of_nat (length (filter satisfied (schedule_agents m'))) ∧
  get_agent_count m' = Z.of_nat (length (schedule_agents m')) ∧
  (if happy m' =? get_agent_count m'
   then running m' = false else running m' = running m).
Proof.
  intros (m1 & s & H1 & _ & H)%step_Ok.
  pose proof (schedule_step_parameters _ _ H1) as Hpar.
  apply schedule_step_happy in H1 as [Hh Hc]. simpl in Hh.
  rewrite (list_filter_iff _ _ _ unhappy_false) in Hh.
  assert (get_agent_count m1 = Z.of_nat (length (schedule_agents m1))) as Hlen.
  { unfold get_agent_count, schedule_agents.
    by rewrite length_fmap, length_map_to_list. }
  assert (running m1 = running m) as Hr by (by injection Hpar).
  destruct (happy m1 =? get_agent_count m1) eqn:E; subst m';
    unfold get_agent_count, schedule_agents in *; simpl; rewrite E; done.
Qed.

(** *** Population set-up *)

Lemma seed_Ok s s' : Numpy.seed s = Ok s' → s' = s ∧ 0 <= s <= 4294967295.
Proof.
  unfold Numpy.seed.
  destruct (0 <=? s) eqn:E1; destruct (s <=? 4294967295) eqn:E2;
    simpl; try discriminate.
  intros [= <-]. lia.
Qed.


Lemma populate_cell_Ok lb ub m p m' :
  populate_cell lb ub m p = Ok m' →
  (agents (schedule m') = agents (schedule m) ∧
   cells (grid m') = cells (grid m) ∧ current_id m' = current_id m ∧
   parameters m' = parameters m) ∨
  (∃ agent_type,
     (agent_type = 0 ∨ agent_type = 1) ∧
     agents (schedule m') =
       <[current_id m + 2 := new_agent lb ub (current_id m) agent_type p]>
         (agents (schedule m)) ∧
     cells (grid m') = <[p := current_id m + 2]> (cells (grid m)) ∧
     current_id m' = current_id m + 2 ∧
     parameters m' = parameters m).
Proof.
  unfold populate_cell, PyRandom.random, next_id. simpl.
  destruct (ltb _ (density m)); [|intros [= <-]; by left].
  intros (s & [-> _]%seed_Ok & (g & Hg & H)%bind_Ok)%bind_Ok.
  unfold place in Hg. simpl in Hg.
  destruct (is_cell_empty (grid m) p); [|discriminate]. injection Hg as <-.
  unfold schedule_add in H. simpl in H.
  destruct (agents (schedule m) !! (current_id m + 1 + 1)); [discriminate|].
  injection H as <-. right.
  replace (current_id m + 1 + 1) with (current_id m + 2) by lia.
  eexists. split; [|by split_and!].
  destruct (ltb _ (minority_pc m)); auto.
Qed.



(** Every stored agent is a [new_agent] of the counter two below its id. *)
Lemma populate_agents lb ub l : ∀ m m',
  for_each (populate_cell lb ub) l m = Ok m' →
  (∀ uid a, agents (schedule m) !! uid = Some a →
            ∃ ty p, a = new_agent lb ub (uid - 2) ty p) →
  ∀ uid a, agents (schedule m') !! uid = Some a →
           ∃ ty p, a = new_agent lb ub (uid - 2) ty p.
Proof.
  induction l as [|p l IH]; intros m m'; simpl.
  - by intros [= <-].
  - intros (m1 & H1 & H2)%bind_Ok Hm. apply (IH _ _ H2). clear IH H2.
    apply populate_cell_Ok in H1
      as [(Ha & _) | (ty & _ & Ha & _)]; rewrite Ha; [done|].
    intros uid a. destruct (decide (current_id m + 2 = uid)) as [<-|Hne].
    + rewrite lookup_insert_eq. intros [= <-]. exists ty, p.
      by replace (current_id m + 2 - 2) with (current_id m) by lia.
    + rewrite lookup_insert_ne by done. apply Hm.
Qed.

(** *** The cells of the grid *)


Lemma range_length lo hi : length (range lo hi) = Z.to_nat (hi - lo).
Proof. unfold range. by rewrite length_map, length_seq. Qed.


Lemma bind_length {A B : Type} (f : A → list B) (k : nat) (l : list A) :
  (∀ x, length (f x) = k) → length (l ≫= f) = (length l * k)%nat.
Proof.
  intros Hf. induction l as [|x l IH]; [done|].
  rewrite bind_cons, length_app, IH, Hf. simpl. lia.
Qed.

Lemma coord_iter_length g :
  length (coord_iter g) = (Z.to_nat (g_width g) * Z.to_nat (g_height g))%nat.
Proof.
  unfold coord_iter.
  rewrite (bind_length _ (Z.to_nat (g_height g))).
  - by rewrite range_length, Z.sub_0_r.
  - intros x. rewrite (bind_length _ 1%nat) by done.
    rewrite range_length, Z.sub_0_r. lia.
Qed.

(** *** The first double of a seeded generator *)

(** The first doubles after [np.random.seed(0)], [seed(1)] and [seed(42)]:
    0.5488135039273248, 0.417022004702574 and 0.3745401188473625. *)
Lemma first_double_samples :
  (Numpy.first_double 0 == 617909072945749 # 1125899906842624)%Q ∧
  (Numpy.first_double 1 == 3756200289967619 # 9007199254740992)%Q ∧
  (Numpy.first_double 42 == 1686778739676283 # 4503599627370496)%Q.
Proof. split_and!; vm_compute; reflexivity. Qed.



(** *** The loop reads only the types of the neighbours *)





(** *** When the loop divides by zero *)

Lemma neighbors_loop_raises pref nbrs : ∀ self,
  (homophily self == 0)%Q →
  (∃ nb, nb ∈ nbrs ∧ type nb ≠ type self) →
  for_each (visit_neighbor pref) nbrs self = Raise ZeroDivisionError.
Proof.
  induction nbrs as [|nb nbrs IH]; intros self Hh (nb' & Hin & Hne).
  - by apply elem_of_nil in Hin.
  - simpl. destruct (decide (type nb = type self)) as [E|E].
    + rewrite visit_neighbor_same by done. simpl. apply IH; [done|].
      exists nb'. split; [|done].
      apply elem_of_cons in Hin as [->|Hin]; [done|done].
    + rewrite visit_neighbor_dissimilar by done.
      by rewrite truediv_zero.
Qed.

Lemma neighbors_loop_total pref nbrs : ∀ self,
  ¬ (homophily self == 0)%Q ∨ (∀ nb, nb ∈ nbrs → type nb = type self) →
  ∃ self', for_each (visit_neighbor pref) nbrs self = Ok self'.
Proof.
  induction nbrs as [|nb nbrs IH]; intros self H; simpl; [eauto|].
  destruct (decide (type nb = type self)) as [E|E].
  - rewrite visit_neighbor_same by done. simpl. apply IH. simpl.
    destruct H as [H|H]; [by left|]. right. intros nb' Hnb'. apply H. by right.
  - rewrite visit_neighbor_dissimilar by done.
    destruct H as [H|H]; [|exfalso; apply E, H; by left].
    unfold truediv. destruct (Qeq_bool (homophily self) 0) eqn:Hq.
    { by apply Qeq_bool_eq in Hq. }
    simpl. apply IH. by left.
Qed.

(** ** The agent decision rule *)







(** C10: the activation of an agent raises a division-by-zero error exactly
    when its homophily is zero and at least one occupied neighbouring cell
    holds an agent of another type; with a non-zero homophily, or without
    dissimilar neighbours, the division never raises. *)
Theorem zero_homophily_raises uid m self p nbrs :
  agents (schedule m) !! uid = Some self →
  pos self = Some p →
  iter_neighbors (grid m) (agents (schedule m)) p (radius m) = Ok nbrs →
  agent_step uid m = Raise ZeroDivisionError ↔
  (homophily self == 0)%Q ∧ ∃ nb, nb ∈ nbrs ∧ type nb ≠ type self.
Proof.
  intros Ha Hp Hn. unfold agent_step. rewrite Ha.
  cbn [pos set_similar set_accepted_dissimilar]. rewrite Hp, Hn. cbn [bind].
  fold (reset self). split.
  - intros H.
    destruct (Qeq_dec (homophily self) 0) as [Hh|Hh];
      [destruct (decide (Exists (λ nb, type nb ≠ type self) nbrs)) as [He|He]|].
    + split; [done|]. by apply Exists_exists in He.
    + destruct (neighbors_loop_total (preference m) nbrs (reset self))
        as [self' Hl].
      { right. intros nb Hnb. destruct (decide (type nb = type self)); [done|].
        exfalso. apply He, Exists_exists. by exists nb. }
      rewrite Hl in H. cbn [bind] in H.
      destruct (unhappy self'); [|done].
      by apply move_to_empty_not_ZeroDivisionError in H.
    + destruct (neighbors_loop_total (preference m) nbrs (reset self))
        as [self' Hl]; [by left|].
      rewrite Hl in H. cbn [bind] in H.
      destruct (unhappy self'); [|done].
      by apply move_to_empty_not_ZeroDivisionError in H.
  - intros [Hh He]. by rewrite neighbors_loop_raises.
Qed.

Lemma zero_homophily_raises_witness :
  agent_step 2 Samples.mixed_zero = Raise ZeroDivisionError.
Proof.
  apply (zero_homophily_raises 2 Samples.mixed_zero
           (Samples.agent_at 2 Samples.mixed_zero) (0, 0)
           [Samples.agent_at 4 Samples.mixed_zero]);
    [vm_compute; reflexivity .. |].
  split; [reflexivity|].
  exists (Samples.agent_at 4 Samples.mixed_zero).
  split; [left | vm_compute; discriminate].
Defined.

(** ** The tick *)



(** C7: a tick sets [running] to false if and only if [happy] equals the
    number of scheduled agents at the end of the tick; if even one agent is
    not satisfied in that tick, [running] keeps its value, so a model that
    was running keeps running.  Nothing else in a tick stops the model. *)
Theorem termination m m' :
  step m = Ok m' →
  (happy m' = get_agent_count m' → running m' = false) ∧
  (happy m' ≠ get_agent_count m' → running m' = running m) ∧
  ((∃ a, a ∈ schedule_agents m' ∧ ¬ satisfied a) → running m' = running m) ∧
  (running m = true →
     (running m' = false ↔ happy m' = get_agent_count m')).
Proof.
  intros (Hh & Hc & Hr)%step_happy.
  destruct (happy m' =? get_agent_count m') eqn:E.
  - apply Z.eqb_eq in E. split_and!; try done.
    intros (a & Ha & Hns). exfalso.
    pose proof (length_filter_lt satisfied (schedule_agents m') a Ha Hns). lia.
  - apply Z.eqb_neq in E. split_and!; try done.
    intros Hrun. rewrite Hr, Hrun. split; [discriminate | done].
Qed.

Lemma termination_witness :
  running Samples.pair_after = false ∧
  running Samples.trio_after = true ∧
  (running Samples.trio_after = false ↔
     happy Samples.trio_after = get_agent_count Samples.trio_after).
Proof.
  split; [reflexivity|]. split; [reflexivity|].
  apply (termination Samples.trio Samples.trio_after); vm_compute; reflexivity.
Defined.



(** C1: on the pair of same-type neighbours, the tick leaves every agent with
    [similar = 1] and [accepted_dissimilar = 0], while [perceived_similar],
    in the agent and in the snapshot taken after the tick, is still the 0
    of the constructor. *)
Theorem perceived_similar_stale :
  step Samples.pair = Ok Samples.pair_after ∧
  map (λ a, (unique_id a, similar a, accepted_dissimilar a, perceived_similar a))
      (schedule_agents Samples.pair_after)
    = [(4, 1, 0%Q, 0%Q); (2, 1, 0%Q, 0%Q)] ∧
  (snap_agents <$> last (datacollector Samples.pair_after)) =
    Some [ {| row_step := 1; row_id := 4; row_similar := 1;
              row_perceived_similar := 0; row_type := 1 |};
           {| row_step := 1; row_id := 2; row_similar := 1;
              row_perceived_similar := 0; row_type := 1 |} ].
Proof. split_and!; vm_compute; reflexivity. Qed.

(** ** Construction *)

Lemma init_Ok h w lb ub pref rad dens minority seed m :
  init h w lb ub pref rad dens minority seed = Ok m →
  ∃ m1,
    for_each (populate_cell lb ub)
      (coord_iter (grid (unpopulated h w lb ub pref rad dens minority seed)))
      (unpopulated h w lb ub pref rad dens minority seed) = Ok m1 ∧
    m = collect m1.
Proof.
  unfold init. intros (m1 & H1 & [= <-])%bind_Ok. by exists m1.
Qed.








(** ** Further properties of the agent rule *)

(** An activation taken apart, with the state it returns. *)
Lemma agent_step_shape uid m m' :
  agent_step uid m = Ok m' →
  ∃ self self',
    agents (schedule m) !! uid = Some self ∧
    unique_id self' = unique_id self ∧ type self' = type self ∧
    homophily self' = homophily self ∧
    perceived_similar self' = perceived_similar self ∧
    ((unhappy self' = false ∧ pos self' = pos self ∧
      m' = set_happy (happy m + 1) (store_agent uid self' m)) ∨
     (unhappy self' = true ∧
      ∃ old new_pos r,
        pos self = Some old ∧ pos self' = Some new_pos ∧
        new_pos ∈ empties (grid m) ∧
        m' = store_agent uid self'
               (set_grid {| g_width := g_width (grid m);
                            g_height := g_height (grid m);
                            cells := <[new_pos := uid]> (delete old (cells (grid m))) |}
                  (set_random r m)))).
Proof.
  intros (self & p & nbrs & self1 & Ha & Hp & Hn & Hl & H)%agent_step_Ok.
  apply neighbors_loop_fields in Hl as (Hu & Hpos & Ht & Hh & Hps).
  destruct H as [[Hun ->] | [Hun Hm]].
  - exists self, self1. split_and!; try done. left. by split_and!.
  - apply move_to_empty_Ok in Hm as (agent & old & new_pos & r & Hg & Hold & He & ->).
    simpl in Hg. rewrite lookup_insert_eq in Hg. injection Hg as <-.
    exists self, (set_pos (Some new_pos) self1). split_and!; try done.
    right. split; [done|]. exists old, new_pos, r.
    rewrite Hpos in Hold. split_and!; try done.
    unfold store_agent, set_schedule, set_grid, set_random. simpl.
    by rewrite insert_insert_eq.
Qed.

Lemma elem_of_empties g p :
  p ∈ empties g ↔ p ∈ coord_iter g ∧ cells g !! p = None.
Proof.
  unfold empties. rewrite list_elem_of_filter. unfold is_cell_empty.
  rewrite bool_decide_eq_true. tauto.
Qed.

Lemma agent_step_consistent uid m m' :
  consistent m → agent_step uid m = Ok m' → consistent m'.
Proof.
  intros [Hac Hca Hin]
    (self & self' & Ha & Hid & _ & _ & _ & H)%agent_step_shape.
  destruct (Hac _ _ Ha) as (Hkey & p & Hp & Hcell).
  destruct H as [(_ & Hpos & ->) | (_ & old & new_pos & r & Hold & Hnew & He & ->)].
  - split; simpl.
    + intros j a. destruct (decide (uid = j)) as [<-|Hne].
      * rewrite lookup_insert_eq. intros [= <-]. split; [congruence|].
        exists p. split; [congruence | done].
      * rewrite lookup_insert_ne by done. apply Hac.
    + intros q j Hq. destruct (Hca _ _ Hq) as (a & Haj & Hpa).
      destruct (decide (uid = j)) as [<-|Hne].
      * rewrite lookup_insert_eq. exists self'. split; [done|]. congruence.
      * rewrite lookup_insert_ne by done. eauto.
    + done.
  - apply elem_of_empties in He as [Hgrid Hempty].
    assert (old = p) as -> by congruence.
    assert (new_pos ≠ p) as Hnp by congruence.
    split; simpl.
    + intros j a. destruct (decide (uid = j)) as [<-|Hne].
      * rewrite lookup_insert_eq. intros [= <-]. split; [congruence|].
        exists new_pos. split; [done|]. apply lookup_insert_eq.
      * rewrite lookup_insert_ne by done. intros Hj.
        destruct (Hac _ _ Hj) as (Hkj & q & Hq & Hcq). split; [done|].
        exists q. split; [done|].
        rewrite lookup_insert_ne by congruence.
        rewrite lookup_delete_ne by congruence. done.
    + intros q j. destruct (decide (new_pos = q)) as [<-|Hne].
      * rewrite lookup_insert_eq. intros [= <-]. exists self'.
        by rewrite lookup_insert_eq.
      * rewrite lookup_insert_ne by done.
        destruct (decide (p = q)) as [<-|Hpq].
        { by rewrite lookup_delete_eq. }
        rewrite lookup_delete_ne by done. intros Hq.
        destruct (Hca _ _ Hq) as (a & Haj & Hpa).
        assert (uid ≠ j) as Hj by (intros <-; congruence).
        rewrite lookup_insert_ne by done. eauto.
    + intros q. unfold coord_iter. simpl. fold (coord_iter (grid m)).
      destruct (decide (new_pos = q)) as [<-|Hne]; [done|].
      rewrite lookup_insert_ne by done.
      destruct (decide (p = q)) as [<-|Hpq].
      { rewrite lookup_delete_eq. by intros [? ?]. }
      rewrite lookup_delete_ne by done. apply Hin.
Qed.

(** ** Further properties of a round of activations *)

Lemma activate_Ok m key m' :
  activate m key = Ok m' →
  (agents (schedule m) !! key = None ∧ m' = m) ∨
  (is_Some (agents (schedule m) !! key) ∧ agent_step key m = Ok m').
Proof.
  unfold activate. destruct (agents (schedule m) !! key) eqn:E.
  - right. eauto.
  - intros [= <-]. by left.
Qed.

Lemma agent_step_bookkeeping uid m m' :
  agent_step uid m = Ok m' → bookkeeping m' = bookkeeping m.
Proof.
  intros (self & self' & _ & _ & _ & _ & _ & H)%agent_step_shape.
  by destruct H as [(_ & _ & ->) | (_ & old & new_pos & r & _ & _ & _ & ->)].
Qed.

Lemma activations_bookkeeping ids : ∀ m m',
  for_each activate ids m = Ok m' → bookkeeping m' = bookkeeping m.
Proof.
  induction ids as [|i ids IH]; intros m m'; simpl.
  - by intros [= <-].
  - intros (m1 & H1 & H2)%bind_Ok. rewrite (IH _ _ H2).
    apply activate_Ok in H1 as [[_ ->] | [_ H1]]; [done|].
    by eapply agent_step_bookkeeping.
Qed.

Lemma activations_consistent ids : ∀ m m',
  consistent m → for_each activate ids m = Ok m' → consistent m'.
Proof.
  induction ids as [|i ids IH]; intros m m' Hc; simpl.
  - by intros [= <-].
  - intros (m1 & H1 & H2)%bind_Ok. apply (IH m1); [|done].
    apply activate_Ok in H1 as [[_ ->] | [_ H1]]; [done|].
    by eapply agent_step_consistent.
Qed.

(** A round neither adds nor removes an agent, and changes no [identity]. *)
Lemma activations_identity ids : ∀ m m',
  for_each activate ids m = Ok m' →
  ∀ uid, identity <$> agents (schedule m') !! uid
       = identity <$> agents (schedule m) !! uid.
Proof.
  induction ids as [|i ids IH]; intros m m'; simpl.
  - by intros [= <-].
  - intros (m1 & H1 & H2)%bind_Ok uid. rewrite (IH _ _ H2).
    apply activate_Ok in H1 as [[_ ->] | [_ H1]]; [done|].
    apply agent_step_store in H1
      as (self & self' & Hs & -> & Hid & Ht & Hh & Hps & _).
    destruct (decide (i = uid)) as [<-|Hne].
    + rewrite lookup_insert_eq, Hs. unfold identity. simpl. congruence.
    + by rewrite lookup_insert_ne.
Qed.

(** [happy] grows by at most one per activation; when it grows by one each
    time, nobody has moved. *)
Lemma activations_happy_bound ids : ∀ m m',
  for_each activate ids m = Ok m' →
  happy m <= happy m' <= happy m + Z.of_nat (length ids) ∧
  (happy m' = happy m + Z.of_nat (length ids) →
   grid m' = grid m ∧
   ∀ uid, pos <$> agents (schedule m') !! uid = pos <$> agents (schedule m) !! uid).
Proof.
  induction ids as [|i ids IH]; intros m m'; simpl.
  - intros [= <-]. split; [lia | done].
  - intros (m1 & H1 & H2)%bind_Ok.
    destruct (IH _ _ H2) as [Hb Hall]. clear IH.
    apply activate_Ok in H1 as [[_ ->] | [_ H1]].
    { split; [lia|]. intros Heq. lia. }
    apply agent_step_shape in H1 as (self & self' & Ha & _ & _ & _ & _ & H).
    destruct H as [(_ & Hpos & ->) | (_ & old & new_pos & r & _ & _ & _ & ->)];
      simpl in *.
    + split; [lia|]. intros Heq.
      destruct Hall as [Hg Hp]; [lia|]. split; [done|].
      intros uid. rewrite Hp. destruct (decide (i = uid)) as [<-|Hne].
      * rewrite lookup_insert_eq, Ha. simpl. by rewrite Hpos.
      * by rewrite lookup_insert_ne.
    + split; [lia|]. intros Heq. lia.
Qed.

(** An agent that ends the round satisfied stands where it stood. *)
Lemma activations_stay ids : ∀ m m' uid a a',
  NoDup ids →
  for_each activate ids m = Ok m' →
  agents (schedule m) !! uid = Some a →
  agents (schedule m') !! uid = Some a' →
  unhappy a' = false ∨ uid ∉ ids → pos a' = pos a.
Proof.
  induction ids as [|i ids IH]; intros m m' uid a a' Hnd; simpl.
  - intros [= <-] Ha Ha' _. congruence.
  - apply NoDup_cons in Hnd as [Hi Hnd].
    intros (m1 & H1 & H2)%bind_Ok Ha Ha' Hsat.
    apply activate_Ok in H1 as [[Hnone ->] | [_ H1]].
    { apply (IH _ _ _ _ _ Hnd H2 Ha Ha').
      destruct Hsat as [?|Hn]; [by left|]. right.
      by apply not_elem_of_cons in Hn as [_ ?]. }
    destruct (activations_happy _ _ _ Hnd H2) as (_ & Hframe & _).
    apply agent_step_shape in H1 as (self & self' & Hs & _ & _ & _ & _ & H).
    destruct (decide (i = uid)) as [<-|Hne].
    + assert (agents (schedule m1) !! i = Some self') as H1i.
      { destruct H as [(_ & _ & ->) | (_ & ? & ? & ? & _ & _ & _ & ->)];
          simpl; apply lookup_insert_eq. }
      rewrite Hframe, H1i in Ha' by done. injection Ha' as <-.
      rewrite Hs in Ha. injection Ha as <-.
      destruct Hsat as [Hu|Hn]; [|exfalso; apply Hn; left].
      destruct H as [(_ & Hpos & _) | (Hu' & _)]; [done | congruence].
    + assert (agents (schedule m1) !! uid = Some a) as H1u.
      { destruct H as [(_ & _ & ->) | (_ & ? & ? & ? & _ & _ & _ & ->)];
          simpl; by rewrite lookup_insert_ne. }
      apply (IH _ _ _ _ _ Hnd H2 H1u Ha').
      destruct Hsat as [?|Hn]; [by left|]. right.
      by apply not_elem_of_cons in Hn as [_ ?].
Qed.

(** ** Further properties of the tick *)

(** A tick as a round of activations followed by the reports. *)
Lemma step_round m m' :
  step m = Ok m' →
  ∃ ids r m1,
    ids ≡ₚ (map_to_list (agents (schedule m))).*1 ∧
    for_each activate ids (set_random r (set_happy 0 m)) = Ok m1 ∧
    agents (schedule m') = agents (schedule m1) ∧
    grid m' = grid m1 ∧ happy m' = happy m1 ∧
    current_id m' = current_id m1 ∧
    steps (schedule m') = steps (schedule m1) + 1 ∧
    datacollector m' =
      datacollector m1 ++
        [ {| snap_happy := happy m'; snap_similarity := similarity m';
             snap_agents :=
               map (agent_row (steps (schedule m'))) (schedule_agents m') |} ].
Proof.
  intros (m2 & s & H1 & _ & H)%step_Ok.
  apply schedule_step_Ok in H1 as (ids & r & m1 & Hp & Hf & ->).
  exists ids, r, m1. split; [done|]. split; [done|].
  unfold get_agent_count in H. simpl in H.
  destruct (happy m1 =? _); subst m'; by split_and!.
Qed.

Lemma step_agent_count m m' :
  step m = Ok m' → get_agent_count m' = get_agent_count m.
Proof.
  intros (m1 & s & H1 & _ & H)%step_Ok.
  apply schedule_step_happy in H1 as [_ Hc].
  unfold get_agent_count in *. simpl in *.
  destruct (happy m1 =? _); by subst m'.
Qed.

(** X1: a tick keeps the grid and the scheduler in agreement: afterwards
    every agent still stands on the cell that holds it, no cell holds an
    agent that stands elsewhere, and no agent is outside the grid. *)
Theorem step_consistent m m' :
  consistent m → step m = Ok m' → consistent m'.
Proof.
  intros Hc (ids & r & m1 & _ & Hf & Ha & Hg & _)%step_round.
  assert (consistent (set_random r (set_happy 0 m))) as Hc0
    by (by destruct Hc).
  destruct (activations_consistent _ _ _ Hc0 Hf) as [H1 H2 H3].
  split; rewrite ?Ha, ?Hg; done.
Qed.

(** X2: a tick neither creates nor destroys an agent and hands out no id:
    the scheduled keys are the same before and after, each agent keeps its
    [unique_id], [type], [homophily] and [perceived_similar], and the
    number of agents and the id counter are unchanged. *)
Theorem step_population m m' :
  step m = Ok m' →
  (∀ uid, identity <$> agents (schedule m') !! uid
        = identity <$> agents (schedule m) !! uid) ∧
  get_agent_count m' = get_agent_count m ∧
  current_id m' = current_id m.
Proof.
  intros Hstep.
  destruct (step_round _ _ Hstep)
    as (ids & r & m1 & Hp & Hf & Ha & _ & _ & Hid & _).
  pose proof (activations_identity _ _ _ Hf) as Hident.
  pose proof (activations_bookkeeping _ _ _ Hf) as Hbk.
  split_and!.
  - intros uid. rewrite Ha. apply Hident.
  - by apply step_agent_count.
  - rewrite Hid. unfold bookkeeping in Hbk. simpl in Hbk. by injection Hbk.
Qed.

(** X3: agents that are satisfied in a tick are not moved by it: an agent
    whose [similar + accepted_dissimilar >= homophily] holds after the tick
    has the position it had before. *)
Theorem satisfied_agents_stay m m' uid a a' :
  step m = Ok m' →
  agents (schedule m) !! uid = Some a →
  agents (schedule m') !! uid = Some a' →
  satisfied a' → pos a' = pos a.
Proof.
  intros (ids & r & m1 & Hp & Hf & Ha & _)%step_round Hu Hu' Hsat.
  rewrite Ha in Hu'.
  apply (activations_stay ids (set_random r (set_happy 0 m)) m1 uid a a');
    try done.
  - rewrite Hp. apply NoDup_fst_map_to_list.
  - left. by apply unhappy_false.
Qed.

(** X4: the tick that finds every agent satisfied moves nobody: when
    [happy] equals the number of agents at the end of a tick, the grid and
    every position are what they were before the tick. *)
Theorem all_happy_nobody_moves m m' :
  step m = Ok m' →
  happy m' = get_agent_count m' →
  grid m' = grid m ∧
  ∀ uid, pos <$> agents (schedule m') !! uid = pos <$> agents (schedule m) !! uid.
Proof.
  intros Hstep Hall.
  pose proof (step_agent_count _ _ Hstep) as Hcount.
  destruct (step_round _ _ Hstep)
    as (ids & r & m1 & Hp & Hf & Ha & Hg & Hh & _).
  destruct (activations_happy_bound _ _ _ Hf) as [_ Hfix]. simpl in Hfix.
  rewrite Ha, Hg. apply Hfix.
  rewrite <- Hh, Hall, Hcount. unfold get_agent_count.
  rewrite <- length_map_to_list.
  rewrite <- (length_fmap fst (map_to_list (agents (schedule m)))).
  rewrite Z.add_0_l. f_equal. symmetry. by apply Permutation_length.
Qed.

(** X5: after a tick [happy] lies between 0 and the number of scheduled
    agents. *)
Theorem happy_bounds m m' :
  step m = Ok m' → 0 <= happy m' <= get_agent_count m'.
Proof.
  intros (Hh & Hc & _)%step_happy. rewrite Hh, Hc.
  pose proof (length_filter satisfied (schedule_agents m')). lia.
Qed.

(** X6: a tick appends exactly one snapshot to the collector, taken after
    [similarity] is updated: it holds the [happy] and [similarity] of this
    tick and, for every scheduled agent, a row with the agent's fields as
    the tick left them; the scheduler's step count grows by one and the
    earlier snapshots are kept. *)
Theorem step_snapshot m m' :
  step m = Ok m' →
  steps (schedule m') = steps (schedule m) + 1 ∧
  datacollector m' =
    datacollector m ++
      [ {| snap_happy := happy m'; snap_similarity := similarity m';
           snap_agents :=
             map (agent_row (steps (schedule m) + 1)) (schedule_agents m') |} ].
Proof.
  intros (ids & r & m1 & _ & Hf & _ & _ & _ & _ & Hs & Hd)%step_round.
  apply activations_bookkeeping in Hf. unfold bookkeeping in Hf. simpl in Hf.
  injection Hf as _ Hdc Hst _ _ _.
  rewrite Hd, Hs, Hdc, Hst. done.
Qed.

(** ** Further properties of the construction *)

Lemma random_range r :
  (0 <= (PyRandom.random r).1)%Q ∧ ((PyRandom.random r).1 < 1)%Q.
Proof.
  unfold PyRandom.random. simpl.
  pose proof (Z.mod_pos_bound (PyRandom.tape r (PyRandom.cursor r))
                9007199254740992 eq_refl) as Hn.
  set (n := PyRandom.tape r (PyRandom.cursor r) `mod` 9007199254740992) in *.
  split.
  - apply Qle_shift_div_l; [reflexivity|].
    rewrite Qmult_0_l. rewrite <- (Zle_Qle 0). lia.
  - apply Qlt_shift_div_r; [reflexivity|].
    rewrite Qmult_1_l. rewrite <- Zlt_Qlt. lia.
Qed.

(** The set-up of one cell, with the state it returns. *)
Lemma populate_cell_shape lb ub m p m' :
  populate_cell lb ub m p = Ok m' →
  ((density m <= (PyRandom.random (random m)).1)%Q ∧
   m' = set_random (PyRandom.advance (random m)) m) ∨
  (((PyRandom.random (random m)).1 < density m)%Q ∧
   cells (grid m) !! p = None ∧
   agents (schedule m) !! (current_id m + 2) = None ∧
   ∃ agent_type,
     agent_type =
       (if ltb (PyRandom.random (PyRandom.advance (random m))).1 (minority_pc m)
        then 1 else 0) ∧
     m' = store_agent (current_id m + 2)
            (new_agent lb ub (current_id m) agent_type p)
            (set_grid {| g_width := g_width (grid m);
                         g_height := g_height (grid m);
                         cells := <[p := current_id m + 2]> (cells (grid m)) |}
               (set_current_id (current_id m + 2)
                  (set_random (PyRandom.advance (PyRandom.advance (random m))) m)))).
Proof.
  unfold populate_cell, PyRandom.random, next_id. simpl.
  destruct (ltb _ (density m)) eqn:Hd.
  2:{ intros [= <-]. left. split; [by apply ltb_ge | done]. }
  apply ltb_lt in Hd.
  intros (s & [-> _]%seed_Ok & (g & Hg & H)%bind_Ok)%bind_Ok.
  unfold place, is_cell_empty in Hg. simpl in Hg.
  case_bool_decide as Hc; [|discriminate]. injection Hg as <-.
  unfold schedule_add in H. simpl in H.
  replace (current_id m + 1 + 1) with (current_id m + 2) in H by lia.
  destruct (agents (schedule m) !! (current_id m + 2)) eqn:Ha; [discriminate|].
  injection H as <-. right. split_and!; try done.
  eexists. split; [reflexivity|]. done.
Qed.

(** A property of the state that the set-up of a cell keeps holds after the
    loop over the cells. *)
Lemma populate_loop (I : Schelling → Prop) lb ub l :
  (∀ m p m', p ∈ l → I m → populate_cell lb ub m p = Ok m' → I m') →
  ∀ m m', I m → for_each (populate_cell lb ub) l m = Ok m' → I m'.
Proof.
  induction l as [|p l IH]; intros Hbody m m' Hm; simpl.
  - by intros [= <-].
  - intros (m1 & H1 & H2)%bind_Ok. apply (IH (λ m p m' Hp, Hbody m p m' (list_elem_of_further _ _ _ Hp)) m1); [|done].
    eapply Hbody; [left | done | done].
Qed.

(** The same with the list of the cells already seen. *)
Lemma populate_loop_visited (I : list Coordinate → Schelling → Prop) lb ub l :
  (∀ seen m p m', I seen m → populate_cell lb ub m p = Ok m' → I (seen ++ [p]) m') →
  ∀ seen m m', I seen m → for_each (populate_cell lb ub) l m = Ok m' →
               I (seen ++ l) m'.
Proof.
  intros Hbody. induction l as [|p l IH]; intros seen m m' Hm; simpl.
  - intros [= <-]. by rewrite app_nil_r.
  - intros (m1 & H1 & H2)%bind_Ok.
    replace (seen ++ p :: l) with ((seen ++ [p]) ++ l)
      by (by rewrite <- app_assoc).
    apply (IH _ m1); [|done]. by eapply Hbody.
Qed.

Lemma populate_consistent lb ub m p m' :
  consistent m → p ∈ coord_iter (grid m) →
  populate_cell lb ub m p = Ok m' → consistent m'.
Proof.
  intros [Hac Hca Hin] Hp
    [[_ ->] | (_ & Hc & Ha & ty & _ & ->)]%populate_cell_shape; [done|].
  split; simpl.
  - intros j a. destruct (decide (current_id m + 2 = j)) as [<-|Hne].
    + rewrite lookup_insert_eq. intros [= <-]. split; [done|].
      exists p. split; [done|]. apply lookup_insert_eq.
    + rewrite lookup_insert_ne by done. intros Hj.
      destruct (Hac _ _ Hj) as (Hk & q & Hq & Hcq). split; [done|].
      exists q. split; [done|]. rewrite lookup_insert_ne by congruence. done.
  - intros q j. destruct (decide (p = q)) as [<-|Hne].
    + rewrite lookup_insert_eq. intros [= <-].
      rewrite lookup_insert_eq. eauto.
    + rewrite lookup_insert_ne by done. intros Hq.
      destruct (Hca _ _ Hq) as (a & Haj & Hpa).
      rewrite lookup_insert_ne by congruence. eauto.
  - intros q. unfold coord_iter. simpl. fold (coord_iter (grid m)).
    destruct (decide (p = q)) as [<-|Hne]; [done|].
    rewrite lookup_insert_ne by done. apply Hin.
Qed.

Lemma populate_cell_dims lb ub m p m' :
  populate_cell lb ub m p = Ok m' →
  g_width (grid m') = g_width (grid m) ∧ g_height (grid m') = g_height (grid m) ∧
  parameters m' = parameters m.
Proof.
  by intros [[_ ->] | (_ & _ & _ & ty & _ & ->)]%populate_cell_shape.
Qed.

Lemma unpopulated_consistent h w lb ub pref rad dens minority seed :
  consistent (unpopulated h w lb ub pref rad dens minority seed).
Proof.
  split; simpl.
  - intros uid a Hx. by rewrite lookup_empty in Hx.
  - intros q uid Hx. by rewrite lookup_empty in Hx.
  - intros q [x Hx]. by rewrite lookup_empty in Hx.
Qed.

Lemma populate_cells_consistent lb ub m m1 :
  consistent m →
  for_each (populate_cell lb ub) (coord_iter (grid m)) m = Ok m1 →
  consistent (collect m1).
Proof.
  intros Hc H1.
  assert (consistent m1 ∧ g_width (grid m1) = g_width (grid m) ∧
          g_height (grid m1) = g_height (grid m))
    as [[Hac Hca Hin] _]; [|by split].
  refine (populate_loop
            (λ m', consistent m' ∧ g_width (grid m') = g_width (grid m) ∧
                   g_height (grid m') = g_height (grid m))
            lb ub _ _ m m1 _ H1).
  - intros m2 p m' Hp (Hc2 & Hw & Hh) Hcell.
    destruct (populate_cell_dims _ _ _ _ _ Hcell) as (-> & -> & _).
    split; [|done]. eapply populate_consistent; [done| |done].
    unfold coord_iter in *. by rewrite Hw, Hh.
  - done.
Qed.

(** X7: construction leaves the grid and the scheduler in agreement: every
    agent it made stands on the cell that holds it, every occupied cell
    holds an agent standing there, and all of them are cells of the grid. *)
Theorem init_consistent h w lb ub pref rad dens minority seed m :
  init h w lb ub pref rad dens minority seed = Ok m → consistent m.
Proof.
  intros (m1 & H1 & ->)%init_Ok.
  eapply populate_cells_consistent; [|exact H1].
  apply unpopulated_consistent.
Qed.

Lemma init_consistent_witness : consistent Samples.trio.
Proof.
  apply (init_consistent 1 3 0 1 (1 # 4) 1 (8 # 10) (2 # 10)
           (Samples.tape_of [0; 0; 0; Samples.big; Samples.big])).
  vm_compute; reflexivity.
Defined.

Lemma step_consistent_witness : consistent Samples.trio_after.
Proof.
  apply (step_consistent Samples.trio Samples.trio_after);
    [|vm_compute; reflexivity].
  destruct (init_Ok 1 3 0 1 (1 # 4) 1 (8 # 10) (2 # 10)
              (Samples.tape_of [0; 0; 0; Samples.big; Samples.big])
              Samples.trio) as (m1 & H1 & E); [vm_compute; reflexivity|].
  rewrite E. eapply populate_cells_consistent; [|exact H1].
  apply unpopulated_consistent.
Defined.

Lemma step_population_witness :
  (∀ uid, identity <$> agents (schedule Samples.trio_after) !! uid
        = identity <$> agents (schedule Samples.trio) !! uid) ∧
  get_agent_count Samples.trio_after = get_agent_count Samples.trio ∧
  current_id Samples.trio_after = current_id Samples.trio.
Proof.
  apply (step_population Samples.trio Samples.trio_after).
  vm_compute; reflexivity.
Defined.

Lemma satisfied_agents_stay_witness :
  pos (Samples.agent_at 2 Samples.trio_after) = pos (Samples.agent_at 2 Samples.trio).
Proof.
  apply (satisfied_agents_stay Samples.trio Samples.trio_after 2
           (Samples.agent_at 2 Samples.trio)
           (Samples.agent_at 2 Samples.trio_after));
    [vm_compute; reflexivity .. |].
  unfold satisfied. vm_compute. discriminate.
Defined.

Lemma all_happy_nobody_moves_witness :
  grid Samples.pair_after = grid Samples.pair ∧
  ∀ uid, pos <$> agents (schedule Samples.pair_after) !! uid
       = pos <$> agents (schedule Samples.pair) !! uid.
Proof.
  apply (all_happy_nobody_moves Samples.pair Samples.pair_after);
    vm_compute; reflexivity.
Defined.

Lemma happy_bounds_witness :
  0 <= happy Samples.trio_after <= get_agent_count Samples.trio_after.
Proof.
  apply (happy_bounds Samples.trio Samples.trio_after).
  vm_compute; reflexivity.
Defined.

Lemma step_snapshot_witness :
  steps (schedule Samples.trio_after) = steps (schedule Samples.trio) + 1 ∧
  datacollector Samples.trio_after =
    datacollector Samples.trio ++
      [ {| snap_happy := happy Samples.trio_after;
           snap_similarity := similarity Samples.trio_after;
           snap_agents :=
             map (agent_row (steps (schedule Samples.trio) + 1))
                 (schedule_agents Samples.trio_after) |} ].
Proof.
  apply (step_snapshot Samples.trio Samples.trio_after).
  vm_compute; reflexivity.
Defined.

Lemma populated_reports lb ub l m m1 :
  for_each (populate_cell lb ub) l m = Ok m1 →
  happy m1 = happy m ∧ similarity m1 = similarity m ∧
  running m1 = running m ∧ steps (schedule m1) = steps (schedule m) ∧
  datacollector m1 = datacollector m.
Proof.
  intros H1.
  refine (populate_loop
            (λ m', happy m' = happy m ∧ similarity m' = similarity m ∧
                   running m' = running m ∧
                   steps (schedule m') = steps (schedule m) ∧
                   datacollector m' = datacollector m)
            lb ub _ _ m m1 _ H1); [|done].
  by intros m2 p m' _ Hm [[_ ->] | (_ & _ & _ & ty & _ & ->)]%populate_cell_shape.
Qed.

Lemma init_agents h w lb ub pref rad dens minority seed m uid a :
  init h w lb ub pref rad dens minority seed = Ok m →
  agents (schedule m) !! uid = Some a →
  ∃ ty p, a = new_agent lb ub (uid - 2) ty p.
Proof.
  intros (m1 & H1 & ->)%init_Ok Ha. simpl in Ha.
  apply (populate_agents _ _ _ _ _ H1) with (uid := uid) (a := a); [|done].
  intros uid' a' Hx. simpl in Hx. by rewrite lookup_empty in Hx.
Qed.

(** X8: construction starts the reports from zero: [happy] and
    [similarity] are 0, the model is running, no tick is counted, and the
    collector holds exactly one snapshot, whose rows show every agent with
    [similar], [accepted_dissimilar] and [perceived_similar] at 0. *)
Theorem init_reports h w lb ub pref rad dens minority seed m :
  init h w lb ub pref rad dens minority seed = Ok m →
  happy m = 0 ∧ similarity m = 0%Q ∧ running m = true ∧
  steps (schedule m) = 0 ∧
  datacollector m =
    [ {| snap_happy := 0; snap_similarity := 0;
         snap_agents := map (agent_row 0) (schedule_agents m) |} ] ∧
  ∀ uid a, agents (schedule m) !! uid = Some a →
    similar a = 0 ∧ accepted_dissimilar a = 0%Q ∧ (perceived_similar a == 0)%Q.
Proof.
  intros Hinit. pose proof Hinit as (m1 & H1 & ->)%init_Ok.
  destruct (populated_reports _ _ _ _ _ H1) as (Hh & Hs & Hr & Hst & Hd).
  simpl in Hh, Hs, Hr, Hst, Hd.
  split_and!; try done.
  - unfold collect, snapshot. simpl. rewrite Hd, Hh, Hs, Hst. done.
  - intros uid a Ha.
    by destruct (init_agents _ _ _ _ _ _ _ _ _ _ _ _ Hinit Ha) as (ty & p & ->).
Qed.

Lemma init_reports_witness :
  happy Samples.trio = 0 ∧ similarity Samples.trio = 0%Q ∧
  running Samples.trio = true ∧ steps (schedule Samples.trio) = 0 ∧
  datacollector Samples.trio =
    [ {| snap_happy := 0; snap_similarity := 0;
         snap_agents := map (agent_row 0) (schedule_agents Samples.trio) |} ] ∧
  ∀ uid a, agents (schedule Samples.trio) !! uid = Some a →
    similar a = 0 ∧ accepted_dissimilar a = 0%Q ∧ (perceived_similar a == 0)%Q.
Proof.
  apply (init_reports 1 3 0 1 (1 # 4) 1 (8 # 10) (2 # 10)
           (Samples.tape_of [0; 0; 0; Samples.big; Samples.big])).
  vm_compute; reflexivity.
Defined.

Lemma populated_types lb ub l m m1 minority uid a :
  minority_pc m = minority →
  agents (schedule m) = ∅ →
  for_each (populate_cell lb ub) l m = Ok m1 →
  agents (schedule m1) !! uid = Some a →
  (type a = 0 ∨ type a = 1) ∧
  ((minority <= 0)%Q → type a = 0) ∧
  ((1 <= minority)%Q → type a = 1).
Proof.
  intros Hmin0 Hempty H1 Ha.
  set (good := λ a : SchellingAgent,
         (type a = 0 ∨ type a = 1) ∧ ((minority <= 0)%Q → type a = 0) ∧
         ((1 <= minority)%Q → type a = 1)).
  assert (minority_pc m1 = minority ∧
          ∀ uid a, agents (schedule m1) !! uid = Some a → good a) as [_ Hall];
    [|by apply (Hall uid a)].
  refine (populate_loop
            (λ m', minority_pc m' = minority ∧
                   ∀ uid a, agents (schedule m') !! uid = Some a → good a)
            lb ub _ _ m m1 _ H1).
  - intros m2 p m' _ [Hmin Hgood]
      [[_ ->] | (_ & _ & _ & ty & Hty & ->)]%populate_cell_shape; [done|].
    split; [done|]. simpl. intros j b.
    destruct (decide (current_id m2 + 2 = j)) as [<-|Hne].
    + rewrite lookup_insert_eq. intros [= <-]. unfold good. simpl.
      destruct (random_range (PyRandom.advance (random m2))) as [H0 H1'].
      rewrite Hmin in Hty.
      destruct (ltb _ minority) eqn:E; subst ty.
      * apply ltb_lt in E. split_and!; [by right | | done].
        intros Hle. exfalso. apply (Qlt_not_le _ _ E).
        by eapply Qle_trans.
      * apply ltb_ge in E. split_and!; [by left | done |].
        intros Hge. exfalso. apply (Qlt_not_le _ _ H1').
        by eapply Qle_trans.
    + rewrite lookup_insert_ne by done. apply Hgood.
  - split; [done|]. intros j b Hx. by rewrite Hempty, lookup_empty in Hx.
Qed.

(** X9: every agent made by the construction has type 0 or 1; with
    [minority_pc <= 0] all of them are of the majority type 0, and with
    [minority_pc >= 1] all of them are of the minority type 1. *)
Theorem init_types h w lb ub pref rad dens minority seed m uid a :
  init h w lb ub pref rad dens minority seed = Ok m →
  agents (schedule m) !! uid = Some a →
  (type a = 0 ∨ type a = 1) ∧
  ((minority <= 0)%Q → type a = 0) ∧
  ((1 <= minority)%Q → type a = 1).
Proof.
  intros (m1 & H1 & ->)%init_Ok Ha.
  change (agents (schedule (collect m1))) with (agents (schedule m1)) in Ha.
  eapply populated_types; [| |exact H1|exact Ha].
  - reflexivity.
  - reflexivity.
Qed.

Lemma init_types_witness :
  (type (Samples.agent_at 2 MoreSamples.majority_only) = 0 ∨
   type (Samples.agent_at 2 MoreSamples.majority_only) = 1) ∧
  ((0 <= 0)%Q → type (Samples.agent_at 2 MoreSamples.majority_only) = 0) ∧
  ((1 <= 0)%Q → type (Samples.agent_at 2 MoreSamples.majority_only) = 1).
Proof.
  apply (init_types 1 3 0 1 0 1 (8 # 10) 0
           (Samples.tape_of [0; 0; 0; 0; Samples.big])
           MoreSamples.majority_only 2);
    vm_compute; reflexivity.
Defined.

(** X10: the construction numbers the agents 2, 4, 6, ...: an id is
    scheduled exactly when it is even and lies between 2 and the id counter,
    and the counter ends at twice the number of agents (the odd ids were
    spent on the seeds). *)
Theorem init_ids h w lb ub pref rad dens minority seed m :
  init h w lb ub pref rad dens minority seed = Ok m →
  current_id m = 2 * get_agent_count m ∧
  ∀ uid, is_Some (agents (schedule m) !! uid) ↔
         Z.even uid = true ∧ 2 <= uid <= current_id m.
Proof.
  intros (m1 & H1 & ->)%init_Ok. unfold get_agent_count. simpl.
  set (m0 := unpopulated h w lb ub pref rad dens minority seed) in *.
  refine (populate_loop
            (λ m', current_id m' = 2 * Z.of_nat (size (agents (schedule m'))) ∧
                   ∀ uid, is_Some (agents (schedule m') !! uid) ↔
                          Z.even uid = true ∧ 2 <= uid <= current_id m')
            lb ub _ _ m0 m1 _ H1).
  - intros m p m' _ [Hcur Hids]
      [[_ ->] | (_ & _ & Hnew & ty & _ & ->)]%populate_cell_shape; [done|].
    simpl. rewrite map_size_insert_None by done. split; [lia|].
    intros uid. destruct (decide (current_id m + 2 = uid)) as [<-|Hne].
    + rewrite lookup_insert_eq. split; [|eauto]. intros _.
      split; [|lia]. apply Z.even_spec.
      exists (Z.of_nat (size (agents (schedule m))) + 1). lia.
    + rewrite lookup_insert_ne by done. rewrite Hids.
      split; [intros [? ?]; split; [done | lia]|].
      intros [Hev Hr]. split; [done|].
      assert (uid ≠ current_id m + 1); [|lia].
      intros ->. rewrite Hcur in Hev. by rewrite Z.even_odd in Hev.
  - simpl. rewrite map_size_empty. split; [done|].
    intros uid. rewrite lookup_empty. split; [by intros [? ?] | lia].
Qed.

Lemma init_ids_witness :
  current_id Samples.trio = 2 * get_agent_count Samples.trio ∧
  ∀ uid, is_Some (agents (schedule Samples.trio) !! uid) ↔
         Z.even uid = true ∧ 2 <= uid <= current_id Samples.trio.
Proof.
  apply (init_ids 1 3 0 1 (1 # 4) 1 (8 # 10) (2 # 10)
           (Samples.tape_of [0; 0; 0; Samples.big; Samples.big])).
  vm_compute; reflexivity.
Defined.

Lemma filter_none {A : Type} (P : A → Prop) `{∀ x, Decision (P x)} (l : list A) :
  (∀ x, x ∈ l → ¬ P x) → filter P l = [].
Proof.
  intros Hl. destruct (filter P l) as [|x l'] eqn:E; [done|].
  assert (x ∈ filter P l) as [HP Hx]%list_elem_of_filter by (rewrite E; left).
  by apply Hl in Hx.
Qed.

Lemma coord_iter_nil g :
  g_width g <= 0 ∨ g_height g <= 0 → coord_iter g = [].
Proof.
  intros H. apply length_zero_iff_nil. rewrite coord_iter_length. lia.
Qed.

Lemma init_no_agents h w lb ub pref rad dens minority seed m :
  (dens <= 0)%Q ∨ w <= 0 ∨ h <= 0 →
  init h w lb ub pref rad dens minority seed = Ok m →
  agents (schedule m) = ∅ ∧ cells (grid m) = ∅.
Proof.
  intros Hcap (m1 & H1 & ->)%init_Ok. simpl.
  set (m0 := unpopulated h w lb ub pref rad dens minority seed) in *.
  destruct Hcap as [Hd | Hwh].
  - assert (density m1 = dens ∧ agents (schedule m1) = ∅ ∧ cells (grid m1) = ∅)
      as (_ & ? & ?); [|done].
    refine (populate_loop
              (λ m', density m' = dens ∧ agents (schedule m') = ∅ ∧
                     cells (grid m') = ∅)
              lb ub _ _ m0 m1 _ H1); [|done].
    intros m p m' _ (Hdens & Ha & Hc)
      [[_ ->] | (Hlt & _)]%populate_cell_shape; [done|].
    exfalso. rewrite Hdens in Hlt.
    destruct (random_range (random m)) as [H0 _].
    apply (Qlt_not_le _ _ Hlt). by eapply Qle_trans.
  - rewrite coord_iter_nil in H1 by (simpl; lia). by injection H1 as <-.
Qed.

(** X11: a construction with [density <= 0], or with a grid of no cell,
    makes no agent and occupies no cell. *)
Theorem init_empty h w lb ub pref rad dens minority seed m :
  (dens <= 0)%Q ∨ w <= 0 ∨ h <= 0 →
  init h w lb ub pref rad dens minority seed = Ok m →
  get_agent_count m = 0 ∧ schedule_agents m = [] ∧ cells (grid m) = ∅.
Proof.
  intros Hcap Hinit.
  destruct (init_no_agents _ _ _ _ _ _ _ _ _ _ Hcap Hinit) as [Ha Hc].
  unfold get_agent_count, schedule_agents. rewrite Ha, Hc.
  by rewrite map_size_empty, map_to_list_empty.
Qed.

Lemma init_empty_witness :
  get_agent_count MoreSamples.negative_density = 0 ∧
  schedule_agents MoreSamples.negative_density = [] ∧
  cells (grid MoreSamples.negative_density) = ∅.
Proof.
  apply (init_empty 2 2 0 1 0 1 (- 1 # 2) (2 # 10) (Samples.tape_of [])).
  - left. vm_compute. discriminate.
  - vm_compute; reflexivity.
Defined.

(** X12: the construction never makes more agents than the grid has cells,
    and with [density >= 1] it populates every cell: the number of agents is
    the number of cells and no cell is empty. *)
Theorem init_capacity h w lb ub pref rad dens minority seed m :
  init h w lb ub pref rad dens minority seed = Ok m →
  get_agent_count m <= Z.max 0 w * Z.max 0 h ∧
  ((1 <= dens)%Q →
     get_agent_count m = Z.max 0 w * Z.max 0 h ∧ empties (grid m) = []).
Proof.
  intros (m1 & H1 & ->)%init_Ok. unfold get_agent_count. simpl.
  set (m0 := unpopulated h w lb ub pref rad dens minority seed) in *.
  pose (I := λ (seen : list Coordinate) (m' : Schelling),
          density m' = dens ∧ g_width (grid m') = w ∧ g_height (grid m') = h ∧
          (size (agents (schedule m')) ≤ length seen)%nat ∧
          ((1 <= dens)%Q →
             size (agents (schedule m')) = length seen ∧
             ∀ q, q ∈ seen → is_Some (cells (grid m') !! q))).
  assert (I ([] ++ coord_iter (grid m0)) m1) as (_ & Hw & Hh & Hle & Hfull).
  { refine (populate_loop_visited I lb ub _ _ [] m0 m1 _ H1).
    - intros seen m p m' (Hd & Hgw & Hgh & Hsz & Hf)
        [[Hge ->] | (_ & _ & Hnew & ty & _ & ->)]%populate_cell_shape;
        unfold I; simpl; rewrite length_app; simpl.
      + split_and!; try done; [lia|]. intros H1d. exfalso.
        destruct (random_range (random m)) as [_ Hlt].
        apply (Qlt_not_le _ _ Hlt). rewrite Hd in Hge. by eapply Qle_trans.
      + rewrite map_size_insert_None by done.
        split_and!; try done; [lia|]. intros H1d.
        destruct (Hf H1d) as [Heq Hall]. split; [lia|].
        intros q [Hq | ->%list_elem_of_singleton]%elem_of_app.
        * destruct (decide (p = q)) as [<-|Hne].
          -- rewrite lookup_insert_eq. eauto.
          -- rewrite lookup_insert_ne by done. by apply Hall.
        * rewrite lookup_insert_eq. eauto.
    - unfold I. simpl. rewrite map_size_empty. split_and!; try done.
      intros _. split; [done|]. intros q Hq. by apply elem_of_nil in Hq. }
  simpl in Hle, Hfull. rewrite coord_iter_length in Hle, Hfull. simpl in Hle, Hfull.
  split; [lia|]. intros H1d. destruct (Hfull H1d) as [Heq Hall].
  split; [lia|].
  unfold empties. apply filter_none. intros q Hq Hemp.
  unfold is_cell_empty in Hemp. apply bool_decide_eq_true in Hemp.
  destruct (Hall q) as [x Hx]; [|congruence].
  unfold coord_iter in *. by rewrite Hw, Hh in Hq.
Qed.

Lemma init_capacity_witness :
  get_agent_count MoreSamples.full <= Z.max 0 2 * Z.max 0 2 ∧
  ((1 <= 1)%Q →
     get_agent_count MoreSamples.full = Z.max 0 2 * Z.max 0 2 ∧
     empties (grid MoreSamples.full) = []).
Proof.
  apply (init_capacity 2 2 0 1 0 1 1 (2 # 10)
           (Samples.tape_of [Samples.big; 0; Samples.big; Samples.big;
                             Samples.big; 0; Samples.big; Samples.big])).
  vm_compute; reflexivity.
Defined.

(** ** Further properties: edge cases of the tick *)

Lemma round_of_zero (n : Q) : (round (inject_Z 0 / n) 2 == 0)%Q.
Proof. destruct n as [[|n|n] d]; reflexivity. Qed.

(** A tick of a model without agents: only the reports are computed. *)
Lemma step_no_agents m :
  agents (schedule m) = ∅ →
  step m =
    (s <- truediv (inject_Z 0)
            (density m * inject_Z (width m) * inject_Z (height m));;
     Ok (set_running false
           (collect
              (set_similarity (round s 2)
                 (set_schedule {| agents := ∅; steps := steps (schedule m) + 1 |}
                    (set_random (random m) (set_happy 0 m))))))).
Proof.
  intros He.
  assert (schedule_step (set_happy 0 m) =
          Ok (set_schedule {| agents := ∅; steps := steps (schedule m) + 1 |}
                (set_random (random m) (set_happy 0 m)))) as Hs.
  { unfold schedule_step.
    change (agents (schedule (set_happy 0 m))) with (agents (schedule m)).
    rewrite He, map_to_list_empty. unfold PyRandom.shuffle. simpl.
    by rewrite He. }
  unfold step. rewrite Hs. cbn [bind].
  unfold calc_similarity, schedule_agents.
  cbn [set_schedule schedule agents density width height].
  rewrite map_to_list_empty. cbn [fmap list_fmap map sum foldr].
  destruct (truediv _ _); [|done]. cbn [bind].
  unfold get_agent_count. cbn [collect set_datacollector set_similarity
    set_schedule schedule agents happy set_random set_happy].
  by rewrite map_size_empty.
Qed.

(** X13: a tick of a model without agents does not fail in the scheduler:
    it raises the division by zero of [calc_similarity] when
    [density * width * height] is zero, and otherwise ends at once with
    [happy = 0], a [similarity] of 0 and [running] false, since zero happy
    agents are all of zero agents. *)
Theorem step_without_agents m :
  agents (schedule m) = ∅ →
  ((density m * inject_Z (width m) * inject_Z (height m) == 0)%Q →
     step m = Raise ZeroDivisionError) ∧
  (¬ (density m * inject_Z (width m) * inject_Z (height m) == 0)%Q →
     ∃ m', step m = Ok m' ∧ happy m' = 0 ∧ (similarity m' == 0)%Q ∧
           running m' = false ∧ grid m' = grid m).
Proof.
  intros He. rewrite (step_no_agents _ He). split; intros Hn.
  - by rewrite truediv_zero.
  - unfold truediv. destruct (Qeq_bool _ 0) eqn:E.
    { by apply Qeq_bool_eq in E. }
    simpl. eexists. split; [reflexivity|]. simpl.
    split_and!; try done; apply round_of_zero.
Qed.

Lemma step_without_agents_witness :
  ((density MoreSamples.negative_density
      * inject_Z (width MoreSamples.negative_density)
      * inject_Z (height MoreSamples.negative_density) == 0)%Q →
     step MoreSamples.negative_density = Raise ZeroDivisionError) ∧
  (¬ (density MoreSamples.negative_density
        * inject_Z (width MoreSamples.negative_density)
        * inject_Z (height MoreSamples.negative_density) == 0)%Q →
     ∃ m', step MoreSamples.negative_density = Ok m' ∧ happy m' = 0 ∧
           (similarity m' == 0)%Q ∧ running m' = false ∧
           grid m' = grid MoreSamples.negative_density).
Proof.
  apply (step_without_agents MoreSamples.negative_density).
  vm_compute; reflexivity.
Defined.

(** X14: a model constructed with a nominal capacity
    [density * width * height] of zero (a [density] of 0, or a [width] or
    [height] of 0) has no agent, and its first tick raises a division by
    zero. *)
Theorem zero_capacity_cannot_step h w lb ub pref rad dens minority seed m :
  (dens * inject_Z w * inject_Z h == 0)%Q →
  init h w lb ub pref rad dens minority seed = Ok m →
  step m = Raise ZeroDivisionError.
Proof.
  intros Hzero Hinit.
  assert ((dens <= 0)%Q ∨ w <= 0 ∨ h <= 0) as Hcap.
  { apply Qmult_integral in Hzero as [Hzero | Hh].
    - apply Qmult_integral in Hzero as [Hd | Hw].
      + left. rewrite Hd. apply Qle_refl.
      + right. left. unfold Qeq in Hw. simpl in Hw. lia.
    - right. right. unfold Qeq in Hh. simpl in Hh. lia. }
  destruct (init_no_agents _ _ _ _ _ _ _ _ _ _ Hcap Hinit) as [Ha _].
  rewrite (step_no_agents _ Ha).
  apply init_Ok in Hinit as (m1 & H1 & ->).
  assert (parameters m1 =
          parameters (unpopulated h w lb ub pref rad dens minority seed)) as Hp.
  { refine (populate_loop
              (λ m', parameters m' =
                     parameters (unpopulated h w lb ub pref rad dens minority seed))
              lb ub _ _ _ m1 _ H1); [|done].
    intros m p m' _ Hm Hcell.
    by destruct (populate_cell_dims _ _ _ _ _ Hcell) as (_ & _ & ->). }
  unfold parameters in Hp. simpl in Hp. injection Hp as Hh Hw Hd _ _ _ _ _ _.
  simpl. rewrite Hh, Hw, Hd. by rewrite truediv_zero.
Qed.

Lemma zero_capacity_cannot_step_witness :
  step MoreSamples.nobody_home = Raise ZeroDivisionError.
Proof.
  apply (zero_capacity_cannot_step 2 2 0 1 0 1 0 (2 # 10) (Samples.tape_of []));
    vm_compute; reflexivity.
Defined.

(** ** Further properties: runs of several ticks *)

Lemma ticks_invariant (I : Schelling → Prop) :
  (∀ m m', I m → step m = Ok m' → I m') →
  ∀ n m m', I m → ticks n m = Ok m' → I m'.
Proof.
  intros Hstep. induction n as [|n IH]; intros m m' Hm; simpl.
  - by intros [= <-].
  - intros (m1 & H1 & H2)%bind_Ok. apply (IH m1); [|done]. by eapply Hstep.
Qed.

Lemma step_log m m' :
  step m = Ok m' →
  steps (schedule m') = steps (schedule m) + 1 ∧
  datacollector m' =
    datacollector m ++
      [ {| snap_happy := happy m'; snap_similarity := similarity m';
           snap_agents :=
             map (agent_row (steps (schedule m) + 1)) (schedule_agents m') |} ].
Proof.
  intros (ids & r & m1 & _ & Hf & _ & _ & _ & _ & Hs & Hd)%step_round.
  apply activations_bookkeeping in Hf. unfold bookkeeping in Hf. simpl in Hf.
  injection Hf as _ Hdc Hst _ _ _.
  rewrite Hd, Hs, Hdc, Hst. done.
Qed.

Lemma step_identity m m' :
  step m = Ok m' →
  ∀ uid, identity <$> agents (schedule m') !! uid
       = identity <$> agents (schedule m) !! uid.
Proof.
  intros (ids & r & m1 & _ & Hf & Ha & _)%step_round uid.
  rewrite Ha. by rewrite (activations_identity _ _ _ Hf).
Qed.

Lemma step_perceived_similar m m' :
  perceived_similar_is_zero m → step m = Ok m' → perceived_similar_is_zero m'.
Proof.
  intros [Hag Hrows] Hstep.
  pose proof (step_identity _ _ Hstep) as Hid.
  destruct (step_log _ _ Hstep) as [_ Hlog].
  assert (∀ uid a, agents (schedule m') !! uid = Some a →
                   (perceived_similar a == 0)%Q) as Hag'.
  { intros uid a' Ha'. specialize (Hid uid). rewrite Ha' in Hid.
    destruct (agents (schedule m) !! uid) as [a|] eqn:Ha; [|done].
    unfold identity in Hid. simpl in Hid. injection Hid as _ _ _ ->.
    by eapply Hag. }
  split; [done|]. intros snap row. rewrite Hlog.
  intros [Hold | ->%list_elem_of_singleton]%elem_of_app; [by apply Hrows|].
  simpl. intros (a & -> & Ha)%list_elem_of_fmap. simpl.
  unfold schedule_agents in Ha.
  apply list_elem_of_fmap in Ha as ([uid a'] & -> & Hin).
  apply elem_of_map_to_list in Hin. by eapply Hag'.
Qed.

(** X15: [perceived_similar] never leaves the 0 of the constructor: after
    the construction and any number of ticks, every agent holds a
    [perceived_similar] of 0, and so does every row of every snapshot the
    collector has taken. *)
Theorem perceived_similar_always_zero h w lb ub pref rad dens minority seed n m0 m :
  init h w lb ub pref rad dens minority seed = Ok m0 →
  ticks n m0 = Ok m →
  perceived_similar_is_zero m.
Proof.
  intros Hinit. apply ticks_invariant; [apply step_perceived_similar|].
  assert (∀ uid a, agents (schedule m0) !! uid = Some a →
                   (perceived_similar a == 0)%Q) as Hag.
  { intros uid a Ha.
    by destruct (init_agents _ _ _ _ _ _ _ _ _ _ _ _ Hinit Ha) as (ty & p & ->). }
  split; [done|].
  apply init_Ok in Hinit as (m1 & H1 & ->).
  destruct (populated_reports _ _ _ _ _ H1) as (_ & _ & _ & _ & Hd).
  simpl in *. rewrite Hd. simpl.
  intros snap row ->%list_elem_of_singleton. simpl.
  intros (a & -> & Ha)%list_elem_of_fmap. simpl.
  unfold schedule_agents in Ha.
  apply list_elem_of_fmap in Ha as ([uid a'] & -> & Hin).
  apply elem_of_map_to_list in Hin. by eapply Hag.
Qed.

Lemma perceived_similar_always_zero_witness :
  perceived_similar_is_zero
    (Samples.or_blank (ticks 3 Samples.trio)).
Proof.
  apply (perceived_similar_always_zero 1 3 0 1 (1 # 4) 1 (8 # 10) (2 # 10)
           (Samples.tape_of [0; 0; 0; Samples.big; Samples.big])
           3 Samples.trio);
    vm_compute; reflexivity.
Defined.

Lemma step_keeps_consistent m m' :
  consistent m → step m = Ok m' → consistent m'.
Proof.
  intros Hc (ids & r & m1 & _ & Hf & Ha & Hg & _)%step_round.
  assert (consistent (set_random r (set_happy 0 m))) as Hc0
    by (by destruct Hc).
  destruct (activations_consistent _ _ _ Hc0 Hf) as [H1 H2 H3].
  split; rewrite ?Ha, ?Hg; done.
Qed.

Lemma step_current_id m m' : step m = Ok m' → current_id m' = current_id m.
Proof.
  intros (ids & r & m2 & _ & Hf & _ & _ & _ & Hc & _)%step_round.
  apply activations_bookkeeping in Hf. unfold bookkeeping in Hf.
  simpl in Hf. injection Hf as _ _ _ Hcur _ _. by rewrite Hc.
Qed.

Lemma ticks_run n : ∀ m0 m,
  consistent m0 → ticks n m0 = Ok m →
  consistent m ∧
  (∀ uid, identity <$> agents (schedule m) !! uid
        = identity <$> agents (schedule m0) !! uid) ∧
  get_agent_count m = get_agent_count m0 ∧
  current_id m = current_id m0 ∧
  steps (schedule m) = steps (schedule m0) + Z.of_nat n ∧
  length (datacollector m) = (length (datacollector m0) + n)%nat.
Proof.
  induction n as [|n IH]; intros m0 m Hc0; simpl.
  - intros [= <-]. split_and!; try done; lia.
  - intros (m1 & H1 & H2)%bind_Ok.
    destruct (step_log _ _ H1) as [Hs1 Hd1].
    pose proof (step_identity _ _ H1) as Hid1.
    pose proof (step_agent_count _ _ H1) as Hcount1.
    pose proof (step_current_id _ _ H1) as Hcur1.
    pose proof (step_keeps_consistent _ _ Hc0 H1) as Hc1.
    destruct (IH m1 m Hc1 H2) as (Hc & Hid & Hcount & Hcur & Hs & Hd).
    split_and!; try done.
    + intros uid. by rewrite Hid, Hid1.
    + congruence.
    + congruence.
    + lia.
    + rewrite Hd, Hd1, length_app. simpl. lia.
Qed.

(** X16: after the construction and any number of ticks the grid and the
    scheduler still agree, the agents are those of the construction, each
    with its [unique_id], [type] and [homophily], the id counter has not
    moved, and the collector holds one snapshot per tick besides the one of
    the construction. *)
Theorem run_keeps_population h w lb ub pref rad dens minority seed n m0 m :
  init h w lb ub pref rad dens minority seed = Ok m0 →
  ticks n m0 = Ok m →
  consistent m ∧
  (∀ uid, identity <$> agents (schedule m) !! uid
        = identity <$> agents (schedule m0) !! uid) ∧
  get_agent_count m = get_agent_count m0 ∧
  current_id m = current_id m0 ∧
  steps (schedule m) = Z.of_nat n ∧
  length (datacollector m) = S n.
Proof.
  intros (m1 & H1 & ->)%init_Ok Hticks.
  destruct (populated_reports _ _ _ _ _ H1) as (_ & _ & _ & Hst & Hd).
  assert (consistent (collect m1)) as Hc0.
  { eapply populate_cells_consistent; [|exact H1].
    apply unpopulated_consistent. }
  destruct (ticks_run _ _ _ Hc0 Hticks) as (Hc & Hid & Hcount & Hcur & Hs & Hl).
  split_and!; try done.
  - rewrite Hs. simpl in *. lia.
  - rewrite Hl. simpl in *. rewrite Hd, length_app. simpl. lia.
Qed.

Lemma run_keeps_population_witness :
  consistent (Samples.or_blank (ticks 3 Samples.trio)) ∧
  (∀ uid, identity <$> agents (schedule (Samples.or_blank (ticks 3 Samples.trio))) !! uid
        = identity <$> agents (schedule Samples.trio) !! uid) ∧
  get_agent_count (Samples.or_blank (ticks 3 Samples.trio))
    = get_agent_count Samples.trio ∧
  current_id (Samples.or_blank (ticks 3 Samples.trio)) = current_id Samples.trio ∧
  steps (schedule (Samples.or_blank (ticks 3 Samples.trio))) = Z.of_nat 3 ∧
  length (datacollector (Samples.or_blank (ticks 3 Samples.trio))) = 4%nat.
Proof.
  apply (run_keeps_population 1 3 0 1 (1 # 4) 1 (8 # 10) (2 # 10)
           (Samples.tape_of [0; 0; 0; Samples.big; Samples.big])
           3 Samples.trio);
    vm_compute; reflexivity.
Defined.

(** ** Further properties: edge cases of the agent rule *)

Lemma neighbors_loop_same pref nbrs : ∀ self,
  (∀ nb, nb ∈ nbrs → type nb = type self) →
  for_each (visit_neighbor pref) nbrs self =
    Ok (set_similar (similar self + Z.of_nat (length nbrs)) self).
Proof.
  induction nbrs as [|nb nbrs IH]; intros self Hall; simpl.
  - f_equal. destruct self. unfold set_similar. simpl. f_equal. lia.
  - rewrite visit_neighbor_same by (apply Hall; left). simpl.
    rewrite IH by (intros nb' Hnb'; apply Hall; by right).
    f_equal. unfold set_similar. simpl. f_equal. lia.
Qed.

(** An activation whose neighbours all share the agent's type. *)
Lemma agent_step_same_type uid m self p nbrs :
  agents (schedule m) !! uid = Some self →
  pos self = Some p →
  iter_neighbors (grid m) (agents (schedule m)) p (radius m) = Ok nbrs →
  (∀ nb, nb ∈ nbrs → type nb = type self) →
  agent_step uid m ≠ Raise ZeroDivisionError ∧
  ∀ m' a', agent_step uid m = Ok m' →
           agents (schedule m') !! uid = Some a' →
           similar a' = Z.of_nat (length nbrs) ∧ accepted_dissimilar a' = 0%Q.
Proof.
  intros Ha Hp Hn Hall. unfold agent_step. rewrite Ha.
  cbn [pos set_similar set_accepted_dissimilar]. rewrite Hp, Hn. cbn [bind].
  fold (reset self). rewrite (neighbors_loop_same _ _ (reset self)) by done.
  cbn [bind].
  set (self' := set_similar _ (reset self)).
  destruct (unhappy self'); split.
  - apply move_to_empty_not_ZeroDivisionError.
  - intros m' a' (agent & old & new_pos & r & Hg & _ & _ & ->)%move_to_empty_Ok.
    simpl in Hg. rewrite lookup_insert_eq in Hg. injection Hg as <-.
    simpl. rewrite lookup_insert_eq. by intros [= <-].
  - done.
  - intros m' a' [= <-]. simpl. rewrite lookup_insert_eq. by intros [= <-].
Qed.

Lemma elem_of_range lo hi i : i ∈ range lo hi ↔ lo <= i < hi.
Proof.
  unfold range. rewrite list_elem_of_fmap. split.
  - intros (k & -> & Hk%elem_of_seq). lia.
  - intros Hi. exists (Z.to_nat (i - lo)). split; [lia|].
    apply elem_of_seq. lia.
Qed.

Lemma elem_of_coord_iter g p :
  p ∈ coord_iter g ↔ 0 <= p.1 < g_width g ∧ 0 <= p.2 < g_height g.
Proof.
  destruct p as [x y]. unfold coord_iter. rewrite list_elem_of_bind.
  setoid_rewrite list_elem_of_bind. setoid_rewrite list_elem_of_singleton.
  setoid_rewrite elem_of_range. simpl. split.
  - intros (x' & (y' & [= -> ->] & Hy) & Hx). done.
  - intros [Hx Hy]. exists x. split; [|done]. exists y. done.
Qed.

(** On a consistent model the neighbourhood of an agent is available. *)
Lemma consistent_neighbors m uid a :
  consistent m → agents (schedule m) !! uid = Some a →
  ∃ p nbrs,
    pos a = Some p ∧ p ∈ coord_iter (grid m) ∧
    iter_neighbors (grid m) (agents (schedule m)) p (radius m) = Ok nbrs ∧
    ∀ nb, nb ∈ nbrs → ∃ j, agents (schedule m) !! j = Some nb.
Proof.
  intros [Hac _ Hin] Ha.
  destruct (Hac _ _ Ha) as (_ & p & Hp & Hcell).
  assert (p ∈ coord_iter (grid m)) as Hgrid by (apply Hin; eauto).
  exists p. unfold iter_neighbors, get_neighborhood.
  apply elem_of_coord_iter in Hgrid as Hb.
  case_bool_decide.
  - exists []. split_and!; try done. intros nb Hnb. by apply elem_of_nil in Hnb.
  - destruct (g_width (grid m) =? 0) eqn:Ew; [lia|].
    destruct (g_height (grid m) =? 0) eqn:Eh; [lia|]. cbn [orb bind].
    eexists. split_and!; try done.
    intros nb (q & Hq & Hnb)%list_elem_of_omap.
    destruct (cells (grid m) !! q) as [j|]; [|done]. simpl in Hnb. eauto.
Qed.

Lemma no_neighborhood g p r :
  r <= 0 → p ∈ coord_iter g → get_neighborhood g p r = Ok [].
Proof.
  intros Hr [Hx Hy]%elem_of_coord_iter. unfold get_neighborhood.
  destruct (decide (r = 0)) as [->|Hne].
  - simpl. destruct (g_width g =? 0) eqn:Ew; [lia|].
    destruct (g_height g =? 0) eqn:Eh; [lia|]. simpl.
    rewrite !Z.add_0_r, !Z.mod_small by done.
    rewrite filter_cons_True.
    2:{ unfold out_of_bounds. simpl.
        apply negb_false_iff. rewrite !andb_true_iff.
        rewrite !Z.leb_le, !Z.ltb_lt. lia. }
    simpl. rewrite filter_cons_False; [done|].
    destruct p. simpl. tauto.
  - assert (range (- r) (r + 1) = []) as ->; [|done].
    apply length_zero_iff_nil. rewrite range_length. lia.
Qed.

(** X17: with [radius < 1] an agent sees no neighbour: its activation
    cannot divide by zero, leaves [similar] and [accepted_dissimilar] at 0,
    and finds the agent satisfied exactly when its homophily is not
    positive. *)
Theorem radius_below_one uid m a :
  consistent m → radius m <= 0 →
  agents (schedule m) !! uid = Some a →
  agent_step uid m ≠ Raise ZeroDivisionError ∧
  ∀ m' a', agent_step uid m = Ok m' →
           agents (schedule m') !! uid = Some a' →
           similar a' = 0 ∧ accepted_dissimilar a' = 0%Q ∧
           (satisfied a' ↔ (homophily a <= 0)%Q).
Proof.
  intros Hc Hr Ha.
  destruct (consistent_neighbors _ _ _ Hc Ha) as (p & nbrs & Hp & Hgrid & _ & _).
  assert (iter_neighbors (grid m) (agents (schedule m)) p (radius m) = Ok [])
    as Hn by (unfold iter_neighbors; by rewrite no_neighborhood).
  destruct (agent_step_same_type uid m a p [] Ha Hp Hn) as [Hz Hok].
  { intros nb Hnb. by apply elem_of_nil in Hnb. }
  split; [done|]. intros m' a' Hstep Ha'.
  destruct (Hok _ _ Hstep Ha') as [Hs Hacc]. split_and!; try done.
  apply agent_step_store in Hstep
    as (self & self' & Hself & Hst & _ & _ & Hh & _).
  rewrite Hst, lookup_insert_eq in Ha'. injection Ha' as <-.
  rewrite Ha in Hself. injection Hself as <-.
  unfold satisfied. rewrite Hs, Hacc, Hh. simpl.
  split; intros H; [by rewrite Qplus_0_l in H | by rewrite Qplus_0_l].
Qed.

Lemma radius_below_one_witness :
  agent_step 2 MoreSamples.blind ≠ Raise ZeroDivisionError ∧
  ∀ m' a', agent_step 2 MoreSamples.blind = Ok m' →
           agents (schedule m') !! 2 = Some a' →
           similar a' = 0 ∧ accepted_dissimilar a' = 0%Q ∧
           (satisfied a' ↔
              (homophily (Samples.agent_at 2 MoreSamples.blind) <= 0)%Q).
Proof.
  apply (radius_below_one 2 MoreSamples.blind
           (Samples.agent_at 2 MoreSamples.blind)).
  - destruct (init_Ok 1 3 0 1 0 0 (8 # 10) (2 # 10)
                (Samples.tape_of [0; 0; 0; Samples.big; Samples.big])
                MoreSamples.blind) as (m1 & H1 & E); [vm_compute; reflexivity|].
    rewrite E. eapply populate_cells_consistent; [|exact H1].
    apply unpopulated_consistent.
  - vm_compute. discriminate.
  - vm_compute; reflexivity.
Defined.

(** X18: in a population of a single type no activation divides by zero,
    whatever the homophily: every neighbour counts as similar, [similar]
    becomes the number of occupied neighbouring cells and
    [accepted_dissimilar] stays 0. *)
Theorem single_type_population uid m a t :
  consistent m →
  (∀ j b, agents (schedule m) !! j = Some b → type b = t) →
  agents (schedule m) !! uid = Some a →
  ∃ p nbrs,
    pos a = Some p ∧
    iter_neighbors (grid m) (agents (schedule m)) p (radius m) = Ok nbrs ∧
    agent_step uid m ≠ Raise ZeroDivisionError ∧
    ∀ m' a', agent_step uid m = Ok m' →
             agents (schedule m') !! uid = Some a' →
             similar a' = Z.of_nat (length nbrs) ∧ accepted_dissimilar a' = 0%Q.
Proof.
  intros Hc Hall Ha.
  destruct (consistent_neighbors _ _ _ Hc Ha) as (p & nbrs & Hp & _ & Hn & Hst).
  exists p, nbrs. split; [done|]. split; [done|].
  apply (agent_step_same_type uid m a p nbrs Ha Hp Hn).
  intros nb (j & Hj)%Hst. rewrite (Hall _ _ Hj). symmetry. by eapply Hall.
Qed.

Lemma single_type_population_witness :
  ∃ p nbrs,
    pos (Samples.agent_at 2 Samples.pair) = Some p ∧
    iter_neighbors (grid Samples.pair) (agents (schedule Samples.pair)) p
      (radius Samples.pair) = Ok nbrs ∧
    agent_step 2 Samples.pair ≠ Raise ZeroDivisionError ∧
    ∀ m' a', agent_step 2 Samples.pair = Ok m' →
             agents (schedule m') !! 2 = Some a' →
             similar a' = Z.of_nat (length nbrs) ∧ accepted_dissimilar a' = 0%Q.
Proof.
  apply (single_type_population 2 Samples.pair
           (Samples.agent_at 2 Samples.pair) 1).
  - destruct (init_Ok 1 2 0 1 0 1 (8 # 10) (2 # 10) (Samples.tape_of [])
                Samples.pair) as (m1 & H1 & E); [vm_compute; reflexivity|].
    rewrite E. eapply populate_cells_consistent; [|exact H1].
    apply unpopulated_consistent.
  - intros j b Hj.
    destruct (init_agents 1 2 0 1 0 1 (8 # 10) (2 # 10) (Samples.tape_of [])
                Samples.pair j b) as (ty & p & ->);
      [vm_compute; reflexivity | done |].
    assert (is_Some (agents (schedule Samples.pair) !! j)) as Hs by eauto.
    apply elem_of_dom in Hs.
    assert (dom (agents (schedule Samples.pair)) = {[2; 4]}) as Hd
      by (vm_compute; reflexivity).
    rewrite Hd in Hs.
    apply elem_of_union in Hs as [->%elem_of_singleton | ->%elem_of_singleton];
      vm_compute in Hj; by injection Hj.
  - vm_compute; reflexivity.
Defined.





(** X21: on a consistent model, an agent that an activation leaves
    unsatisfied has moved: it stands on a different cell, which was empty,
    its old cell is empty now, and no other cell has changed. *)
Theorem unsatisfied_agent_moves uid m m' a a' :
  consistent m →
  agent_step uid m = Ok m' →
  agents (schedule m) !! uid = Some a →
  agents (schedule m') !! uid = Some a' →
  ¬ satisfied a' →
  ∃ old new_pos,
    pos a = Some old ∧ pos a' = Some new_pos ∧ new_pos ≠ old ∧
    cells (grid m) !! new_pos = None ∧
    cells (grid m') !! old = None ∧
    cells (grid m') !! new_pos = Some uid ∧
    ∀ q, q ≠ old → q ≠ new_pos → cells (grid m') !! q = cells (grid m) !! q.
Proof.
  intros [Hac _ _] (self & self' & Hs & _ & _ & _ & _ & H)%agent_step_shape Ha Ha' Hns.
  rewrite Ha in Hs. injection Hs as <-.
  destruct H as [(Hu & _ & ->) | (_ & old & new_pos & r & Hold & Hnew & He & ->)].
  - simpl in Ha'. rewrite lookup_insert_eq in Ha'. injection Ha' as <-.
    by apply unhappy_false in Hu.
  - simpl in Ha'. rewrite lookup_insert_eq in Ha'. injection Ha' as <-.
    apply elem_of_empties in He as [_ Hempty].
    destruct (Hac _ _ Ha) as (_ & p & Hp & Hcell).
    assert (p = old) as -> by congruence.
    assert (new_pos ≠ old) as Hne by congruence.
    exists old, new_pos. simpl. split_and!; try done.
    + rewrite lookup_insert_ne by done. apply lookup_delete_eq.
    + apply lookup_insert_eq.
    + intros q Hq1 Hq2. rewrite lookup_insert_ne by done.
      by rewrite lookup_delete_ne.
Qed.

Lemma unsatisfied_agent_moves_witness :
  ∃ old new_pos,
    pos (Samples.agent_at 4 Samples.trio_strict) = Some old ∧
    pos (Samples.agent_at 4 (Samples.or_blank (agent_step 4 Samples.trio_strict)))
      = Some new_pos ∧
    new_pos ≠ old ∧
    cells (grid Samples.trio_strict) !! new_pos = None ∧
    cells (grid (Samples.or_blank (agent_step 4 Samples.trio_strict))) !! old = None ∧
    cells (grid (Samples.or_blank (agent_step 4 Samples.trio_strict))) !! new_pos
      = Some 4 ∧
    ∀ q, q ≠ old → q ≠ new_pos →
         cells (grid (Samples.or_blank (agent_step 4 Samples.trio_strict))) !! q
         = cells (grid Samples.trio_strict) !! q.
Proof.
  apply (unsatisfied_agent_moves 4 Samples.trio_strict
           (Samples.or_blank (agent_step 4 Samples.trio_strict))
           (Samples.agent_at 4 Samples.trio_strict)
           (Samples.agent_at 4 (Samples.or_blank (agent_step 4 Samples.trio_strict)))).
  - destruct (init_Ok 1 3 0 1 0 1 (8 # 10) (2 # 10)
                (Samples.tape_of [0; 0; 0; Samples.big; Samples.big])
                Samples.trio_strict) as (m1 & H1 & E); [vm_compute; reflexivity|].
    rewrite E. eapply populate_cells_consistent; [|exact H1].
    apply unpopulated_consistent.
  - vm_compute; reflexivity.
  - vm_compute; reflexivity.
  - vm_compute; reflexivity.
  - unfold satisfied. vm_compute. intros H. by apply H.
Defined.

(** ** Further properties: what a tick leaves alone, and single-type runs *)

Lemma step_parameters m m' :
  step m = Ok m' →
  (height m', width m', density m', minority_pc m', homophily_ub m',
   homophily_lb m', radius m', preference m')
  = (height m, width m, density m, minority_pc m, homophily_ub m,
     homophily_lb m, radius m, preference m) ∧
  g_width (grid m') = g_width (grid m) ∧ g_height (grid m') = g_height (grid m).
Proof.
  intros (m1 & s & H1 & _ & H)%step_Ok.
  pose proof (schedule_step_parameters _ _ H1) as Hp.
  apply schedule_step_Ok in H1 as (ids & r & m2 & _ & Hf & ->).
  pose proof (activations_bookkeeping _ _ _ Hf) as Hb.
  unfold parameters in Hp. unfold bookkeeping in Hb. simpl in Hp, Hb.
  injection Hp as E1 E2 E3 E4 E5 E6 E7 E8 _. injection Hb as _ _ _ _ Hw Hh.
  unfold get_agent_count in H. simpl in H.
  destruct (happy m2 =? _); subst m'; simpl;
    rewrite E1, E2, E3, E4, E5, E6, E7, E8, Hw, Hh; done.
Qed.

(** X22: a tick changes none of the construction parameters ([height],
    [width], [density], [minority_pc], the homophily bounds, [radius],
    [preference]) nor the extent of the grid. *)
Theorem step_keeps_parameters m m' :
  step m = Ok m' →
  height m' = height m ∧ width m' = width m ∧ density m' = density m ∧
  minority_pc m' = minority_pc m ∧ homophily_ub m' = homophily_ub m ∧
  homophily_lb m' = homophily_lb m ∧ radius m' = radius m ∧
  preference m' = preference m ∧
  g_width (grid m') = g_width (grid m) ∧ g_height (grid m') = g_height (grid m).
Proof.
  intros (Hp & Hw & Hh)%step_parameters.
  injection Hp as -> -> -> -> -> -> -> ->. by split_and!.
Qed.

Lemma step_keeps_parameters_witness :
  height Samples.trio_after = height Samples.trio ∧
  width Samples.trio_after = width Samples.trio ∧
  density Samples.trio_after = density Samples.trio ∧
  minority_pc Samples.trio_after = minority_pc Samples.trio ∧
  homophily_ub Samples.trio_after = homophily_ub Samples.trio ∧
  homophily_lb Samples.trio_after = homophily_lb Samples.trio ∧
  radius Samples.trio_after = radius Samples.trio ∧
  preference Samples.trio_after = preference Samples.trio ∧
  g_width (grid Samples.trio_after) = g_width (grid Samples.trio) ∧
  g_height (grid Samples.trio_after) = g_height (grid Samples.trio).
Proof.
  apply (step_keeps_parameters Samples.trio Samples.trio_after).
  vm_compute; reflexivity.
Defined.

(** The model is consistent and all its agents have the type [t]. *)
Lemma agent_step_single_type t uid m :
  consistent m →
  (∀ j b, agents (schedule m) !! j = Some b → type b = t) →
  agent_step uid m ≠ Raise ZeroDivisionError ∧
  ∀ m', agent_step uid m = Ok m' →
        consistent m' ∧
        ∀ j b, agents (schedule m') !! j = Some b → type b = t.
Proof.
  intros Hc Hall. split.
  - destruct (agents (schedule m) !! uid) as [a|] eqn:Ha.
    + destruct (consistent_neighbors _ _ _ Hc Ha) as (p & nbrs & Hp & _ & Hn & Hst).
      apply (agent_step_same_type uid m a p nbrs Ha Hp Hn).
      intros nb (j & Hj)%Hst. rewrite (Hall _ _ Hj). symmetry. by eapply Hall.
    + unfold agent_step. by rewrite Ha.
  - intros m' Hstep. split; [by eapply agent_step_consistent|].
    apply agent_step_store in Hstep
      as (self & self' & Hs & -> & _ & Ht & _).
    intros j b. destruct (decide (uid = j)) as [<-|Hne].
    + rewrite lookup_insert_eq. intros [= <-]. rewrite Ht. by eapply Hall.
    + rewrite lookup_insert_ne by done. apply Hall.
Qed.

Lemma activations_single_type t ids : ∀ m,
  consistent m →
  (∀ j b, agents (schedule m) !! j = Some b → type b = t) →
  for_each activate ids m ≠ Raise ZeroDivisionError.
Proof.
  induction ids as [|i ids IH]; intros m Hc Hall; simpl; [done|].
  unfold activate at 1. destruct (agents (schedule m) !! i) eqn:Hi.
  - destruct (agent_step_single_type t i m Hc Hall) as [Hz Hok].
    destruct (agent_step i m) as [m1|e]; simpl.
    + destruct (Hok m1 eq_refl) as [Hc1 Hall1]. by apply IH.
    + congruence.
  - simpl. by apply IH.
Qed.

(** X23: a population of a single type never divides by zero in the agent
    rule.  When [minority_pc <= 0] or [minority_pc >= 1], so that the
    construction makes agents of one type only, and the nominal capacity
    [density * width * height] is not zero, no tick of any run raises a
    division by zero, whatever the homophily of the agents. *)
Theorem single_type_run h w lb ub pref rad dens minority seed n m0 m :
  (minority <= 0)%Q ∨ (1 <= minority)%Q →
  ¬ (dens * inject_Z w * inject_Z h == 0)%Q →
  init h w lb ub pref rad dens minority seed = Ok m0 →
  ticks n m0 = Ok m →
  step m ≠ Raise ZeroDivisionError.
Proof.
  intros Hmin Hcap Hinit Hticks.
  assert (∃ t, ∀ j b, agents (schedule m0) !! j = Some b → type b = t)
    as [t Hall0].
  { pose proof Hinit as (m1 & H1 & E)%init_Ok.
    destruct Hmin as [Hm | Hm]; [exists 0 | exists 1]; intros j b Hj;
      rewrite E in Hj;
      destruct (populated_types lb ub _
                  (unpopulated h w lb ub pref rad dens minority seed) m1
                  minority j b eq_refl eq_refl H1 Hj)
        as (_ & H0 & H1'); auto. }
  assert (consistent m0 ∧ density m0 = dens ∧ width m0 = w ∧ height m0 = h)
    as (Hc0 & Hd0 & Hw0 & Hh0).
  { apply init_Ok in Hinit as (m1 & H1 & ->). split.
    - eapply populate_cells_consistent; [|exact H1].
      apply unpopulated_consistent.
    - assert (parameters m1 =
              parameters (unpopulated h w lb ub pref rad dens minority seed))
        as Hp.
      { refine (populate_loop
                  (λ m', parameters m' =
                         parameters (unpopulated h w lb ub pref rad dens minority seed))
                  lb ub _ _ _ m1 _ H1); [|done].
        intros m2 p m' _ Hm Hcell.
        by destruct (populate_cell_dims _ _ _ _ _ Hcell) as (_ & _ & ->). }
      unfold parameters in Hp. simpl in Hp.
      injection Hp as Eh Ew Ed _ _ _ _ _ _. simpl. by split_and!. }
  clear Hinit.
  assert (consistent m ∧
          (∀ j b, agents (schedule m) !! j = Some b → type b = t) ∧
          density m = dens ∧ width m = w ∧ height m = h)
    as (Hc & Hall & Hd & Hw & Hh).
  { refine (ticks_invariant
              (λ m', consistent m' ∧
                     (∀ j b, agents (schedule m') !! j = Some b → type b = t) ∧
                     density m' = dens ∧ width m' = w ∧ height m' = h)
              _ n m0 m _ Hticks); [|done].
    intros a b (Ha1 & Ha2 & Ha3 & Ha4 & Ha5) Hstep.
    destruct (step_parameters _ _ Hstep) as (Hp & _ & _).
    injection Hp as Eh Ew Ed _ _ _ _ _.
    split; [by eapply step_keeps_consistent|].
    split; [|split_and!; congruence].
    intros j x Hj. pose proof (step_identity _ _ Hstep j) as Hid.
    rewrite Hj in Hid. destruct (agents (schedule a) !! j) as [y|] eqn:Hy; [|done].
    unfold identity in Hid. simpl in Hid. injection Hid as _ -> _ _.
    by eapply Ha2. }
  unfold step. unfold schedule_step.
  destruct (PyRandom.shuffle _ _) as [ids r].
  assert (consistent (set_random r (set_happy 0 m))) as Hc'
    by (by destruct Hc).
  pose proof (activations_single_type t ids _ Hc' Hall) as Hnz.
  destruct (for_each activate ids _) as [m1|e] eqn:Hf; cbn [bind]; [|congruence].
  pose proof (activations_parameters _ _ _ Hf) as Hp.
  unfold parameters in Hp. simpl in Hp. injection Hp as Eh Ew Ed _ _ _ _ _ _.
  unfold calc_similarity. cbn [set_schedule density width height].
  rewrite Eh, Ew, Ed, Hd, Hw, Hh.
  unfold truediv. destruct (Qeq_bool _ 0) eqn:E.
  { by apply Qeq_bool_eq in E. }
  cbn [bind]. by destruct (_ =? _).
Qed.

Lemma single_type_run_witness :
  step (Samples.or_blank (ticks 2 MoreSamples.majority_only))
    ≠ Raise ZeroDivisionError.
Proof.
  apply (single_type_run 1 3 0 1 0 1 (8 # 10) 0
           (Samples.tape_of [0; 0; 0; 0; Samples.big])
           2 MoreSamples.majority_only).
  - left. vm_compute. discriminate.
  - vm_compute. discriminate.
  - vm_compute; reflexivity.
  - vm_compute; reflexivity.
Defined.

Lemma neighbors_partition self (nbrs : list SchellingAgent) :
  (length (same_type_neighbors self nbrs) +
   length (dissimilar_neighbors self nbrs))%nat = length nbrs.
Proof.
  unfold same_type_neighbors, dissimilar_neighbors.
  rewrite <- length_app.
  apply Permutation_length, (filter_app_complement (λ nb, type nb = type self)).
Qed.

(** X24: the scores of an activation.  [similar] and the number of
    dissimilar neighbours add up to the number of occupied neighbouring
    cells, so [similar] lies between 0 and that number; and with a
    non-negative [preference] and a non-negative homophily the credit
    [accepted_dissimilar] is not negative. *)
Theorem activation_scores uid m m' a p nbrs a' :
  agents (schedule m) !! uid = Some a →
  pos a = Some p →
  iter_neighbors (grid m) (agents (schedule m)) p (radius m) = Ok nbrs →
  agent_step uid m = Ok m' →
  agents (schedule m') !! uid = Some a' →
  similar a' + Z.of_nat (length (dissimilar_neighbors a nbrs))
    = Z.of_nat (length nbrs) ∧
  0 <= similar a' <= Z.of_nat (length nbrs) ∧
  ((0 <= preference m)%Q → (0 <= homophily a)%Q →
   (0 <= accepted_dissimilar a')%Q).
Proof.
  intros Ha Hp Hn (self & p0 & nbrs0 & self1 & Ha0 & Hp0 & Hn0 & Hl & H)%agent_step_Ok Ha'.
  rewrite Ha in Ha0. injection Ha0 as <-.
  rewrite Hp in Hp0. injection Hp0 as <-.
  rewrite Hn in Hn0. injection Hn0 as <-.
  apply neighbors_loop_counts in Hl as [Hs Hacc].
  change (same_type_neighbors (reset a) nbrs)
    with (same_type_neighbors a nbrs) in Hs.
  change (dissimilar_neighbors (reset a) nbrs)
    with (dissimilar_neighbors a nbrs) in Hacc.
  cbn [reset similar accepted_dissimilar homophily set_accepted_dissimilar
       set_similar] in Hs, Hacc.
  assert (accepted_dissimilar a' = accepted_dissimilar self1 ∧
          similar a' = similar self1) as [Ea Es].
  { destruct H as [[_ ->] | [_ Hm]].
    - simpl in Ha'. rewrite lookup_insert_eq in Ha'. by injection Ha' as <-.
    - apply move_to_empty_Ok in Hm as (agent & old & new_pos & r & Hg & _ & _ & ->).
      simpl in Hg. rewrite lookup_insert_eq in Hg. injection Hg as <-.
      simpl in Ha'. rewrite lookup_insert_eq in Ha'. by injection Ha' as <-. }
  rewrite Ea, Es, Hs. pose proof (neighbors_partition a nbrs) as Hpart.
  split_and!; try lia.
  intros Hpref Hh. rewrite Hacc, Qplus_0_l.
  apply Qmult_le_0_compat; [rewrite <- (Zle_Qle 0); lia|].
  apply Qmult_le_0_compat; [done|].
  unfold Qdiv. rewrite Qmult_1_l. by apply Qinv_le_0_compat.
Qed.

Lemma activation_scores_witness :
  similar (Samples.agent_at 2 (Samples.or_blank (agent_step 2 Samples.trio)))
    + Z.of_nat (length (dissimilar_neighbors (Samples.agent_at 2 Samples.trio)
                          [Samples.agent_at 4 Samples.trio]))
    = Z.of_nat (length [Samples.agent_at 4 Samples.trio]) ∧
  0 <= similar (Samples.agent_at 2 (Samples.or_blank (agent_step 2 Samples.trio)))
    <= Z.of_nat (length [Samples.agent_at 4 Samples.trio]) ∧
  ((0 <= preference Samples.trio)%Q →
   (0 <= homophily (Samples.agent_at 2 Samples.trio))%Q →
   (0 <= accepted_dissimilar
           (Samples.agent_at 2 (Samples.or_blank (agent_step 2 Samples.trio))))%Q).
Proof.
  apply (activation_scores 2 Samples.trio
           (Samples.or_blank (agent_step 2 Samples.trio))
           (Samples.agent_at 2 Samples.trio) (0, 0)
           [Samples.agent_at 4 Samples.trio]
           (Samples.agent_at 2 (Samples.or_blank (agent_step 2 Samples.trio))));
    vm_compute; reflexivity.
Defined.
